(** * Request gating and session continuity of the maps MCP server

    A shallow embedding of
      - [src/shared/config/env.ts]            (configuration, session stores),
      - [src/adapters/http-hono/middleware.security.ts] (Hono middleware),
      - the Workers security handler          ([checkAuthAndChallenge]),
    followed by the properties of the request gate and of the session
    stores.

    Conventions of the embedding.
      - A JavaScript string is a [string]: a sequence of 8-bit code units.
        HTTP header values are byte strings, so this is exact for every
        value a [Headers] object can hold.
      - [Date.now()] is an explicit argument [now : Z] (milliseconds).
      - [randomUUID()] is an explicit argument [uuid : string].
      - A thrown [Error] is the [Throws] alternative of [outcome], carrying
        the error's [message].
      - A [Map] is a [gmap]; a store method takes the store and returns the
        store it leaves behind. *)

From Stdlib Require Import ZArith Ascii String DecimalString List Bool Lia.
From stdpp Require Import base option gmap strings fin_maps.

Local Open Scope string_scope.
Local Open Scope Z_scope.

(** ** JavaScript string primitives used by the gate *)

Module Js.

(** [\s] of a regular expression and the characters removed by
    [String.prototype.trim] are the same set (WhiteSpace and
    LineTerminator); below U+0100 these are TAB, LF, VT, FF, CR, SP and
    NBSP. *)
Definition isWhiteSpace (a : ascii) : bool :=
  match N_of_ascii a with
  | 9 | 10 | 11 | 12 | 13 | 32 | 160 => true
  | _ => false
  end%N.

(** The characters that [.] of a regular expression (no [s] flag) refuses:
    below U+0100, LF and CR. *)
Definition isLineTerminator (a : ascii) : bool :=
  match N_of_ascii a with
  | 10 | 13 => true
  | _ => false
  end%N.

(** [String.prototype.toLowerCase] on one code unit below U+0100: the
    letters A-Z, and the Latin-1 capitals U+00C0-U+00DE except the
    multiplication sign U+00D7. *)
Definition lowerChar (a : ascii) : ascii :=
  let n := N_of_ascii a in
  if ((65 <=? n) && (n <=? 90))%N then ascii_of_N (n + 32)
  else if ((192 <=? n) && (n <=? 222) && negb (n =? 215))%N
       then ascii_of_N (n + 32)
       else a.

Fixpoint toLowerCase (s : string) : string :=
  match s with
  | EmptyString => EmptyString
  | String a r => String (lowerChar a) (toLowerCase r)
  end.

Fixpoint trimStart (s : string) : string :=
  match s with
  | EmptyString => EmptyString
  | String a r => if isWhiteSpace a then trimStart r else s
  end.

Fixpoint trimEnd (s : string) : string :=
  match s with
  | EmptyString => EmptyString
  | String a r =>
      match trimEnd r with
      | EmptyString => if isWhiteSpace a then EmptyString
                       else String a EmptyString
      | r' => String a r'
      end
  end.

(** [String.prototype.trim]. *)
Definition trim (s : string) : string := trimEnd (trimStart s).

(** [s.split(sep)] for a one-character separator: never empty. *)
Fixpoint split (sep : ascii) (s : string) : list string :=
  match s with
  | EmptyString => [EmptyString]
  | String a r =>
      if Ascii.eqb a sep then EmptyString :: split sep r
      else match split sep r with
           | h :: t => String a h :: t
           | [] => [String a EmptyString]
           end
  end.

(** [s.split(sep, limit)]: the first [limit] pieces. *)
Definition splitLimit (sep : ascii) (limit : nat) (s : string) : list string :=
  firstn limit (split sep s).

(** Truthiness of a string: the empty string is falsy. *)
Definition truthy (s : string) : bool :=
  match s with EmptyString => false | _ => true end.

(** Truthiness of [string | undefined]. *)
Definition truthyOpt (o : option string) : bool :=
  match o with Some s => truthy s | None => false end.

(** *** The expression [/^\s*Bearer\s+(.+)$/i]

    The matcher follows the backtracking order of the engine: [\s*] and
    [\s+] are greedy, [(.+)] must reach the end of the input, and when the
    rest of the input is refused the engine gives back one white space
    character of [\s+] at a time. *)

(** Case-insensitive comparison of one character with a letter of the
    pattern: without the [u] flag only the two ASCII cases match. *)
Definition eqCI (a p : ascii) : bool := Ascii.eqb (lowerChar a) (lowerChar p)
  && (N_of_ascii a <? 128)%N.

(** Match the literal [lit] case-insensitively at the head of [s]; the
    remainder on success. *)
Fixpoint matchLiteralCI (lit s : string) : option string :=
  match lit, s with
  | EmptyString, _ => Some s
  | String p lit', String a s' =>
      if eqCI a p then matchLiteralCI lit' s' else None
  | String _ _, EmptyString => None
  end.

(** [(.+)$] at [s]: the whole of [s], when it is not empty and holds no
    line terminator. *)
Fixpoint noLineTerminator (s : string) : bool :=
  match s with
  | EmptyString => true
  | String a r => negb (isLineTerminator a) && noLineTerminator r
  end.

Definition matchDotPlusEnd (s : string) : option string :=
  if truthy s && noLineTerminator s then Some s else None.

(** [\s+(.+)$] at [s], greedy first. [s] starts the white space run. The
    longest run is tried first (the recursive call); when what follows it
    is refused, the run stops one character earlier. *)
Fixpoint matchSpacesThenRest (s : string) : option string :=
  match s with
  | EmptyString => None
  | String a r =>
      if isWhiteSpace a then
        match matchSpacesThenRest r with
        | Some g => Some g
        | None => matchDotPlusEnd r
        end
      else None
  end.

(** [s.match(/^\s*Bearer\s+(.+)$/i)?.[1]]. [\s*] cannot usefully give
    characters back: the character it would return is white space, never
    the letter B. *)
Definition matchBearer (s : string) : option string :=
  match matchLiteralCI "Bearer" (trimStart s) with
  | Some rest => matchSpacesThenRest rest
  | None => None
  end.

End Js.


(** ** Thrown errors *)

(** The result of code that may throw: the value it returns, or the
    [message] of the [Error] it throws. *)
Inductive outcome (A : Type) : Type :=
| Returns (a : A)
| Throws (msg : string).
Arguments Returns {A} a.
Arguments Throws {A} msg.

Definition bindOutcome {A B : Type} (m : outcome A) (k : A -> outcome B)
  : outcome B :=
  match m with
  | Returns a => k a
  | Throws msg => Throws msg
  end.

(** [try { body } catch (error) { handler((error as Error).message) }]. *)
Definition tryCatch {A : Type} (body : outcome A) (handler : string -> A) : A :=
  match body with
  | Returns a => a
  | Throws msg => handler msg
  end.

#[export] Instance outcome_ret : MRet outcome := fun A a => Returns a.
#[export] Instance outcome_bind : MBind outcome :=
  fun A B k m => bindOutcome m k.

(** ** Configuration: [src/shared/config/env.ts] *)

Module Config.

(** [AuthStrategyType]: ['bearer' | 'none']. *)
Inductive AuthStrategyType : Type := bearer | none.

#[export] Instance AuthStrategyType_eq_dec : EqDecision AuthStrategyType.
Proof. solve_decision. Defined.

(** A value of type [unknown] read from the environment: [undefined],
    [null], a boolean, a string or an integral number. *)
Inductive EnvValue : Type :=
| EUndefined
| ENull
| EBool (b : bool)
| EStr (s : string)
| ENum (n : Z).

(** Truthiness of an environment value. *)
Definition envTruthy (v : EnvValue) : bool :=
  match v with
  | EUndefined | ENull => false
  | EBool b => b
  | EStr s => Js.truthy s
  | ENum n => negb (n =? 0)
  end.

(** [String(v)]. *)
Definition envToString (v : EnvValue) : string :=
  match v with
  | EUndefined => "undefined"
  | ENull => "null"
  | EBool true => "true"
  | EBool false => "false"
  | EStr s => s
  | ENum n => DecimalString.NilZero.string_of_int (Z.to_int n)
  end.

(** [String(v || dflt)]. *)
Definition stringOr (v : EnvValue) (dflt : string) : string :=
  if envTruthy v then envToString v else dflt.

(** The variables of [env : Record<string, unknown>] that the gate depends
    on. [AUTH_STRATEGY], [BEARER_TOKEN] and [NODE_ENV] have the type the
    source casts them to ([string], absent when [None]); [AUTH_ENABLED] and
    [MCP_PROTOCOL_VERSION] stay [unknown]. *)
Record RawEnv : Type := {
  env_AUTH_STRATEGY : option string;
  env_AUTH_ENABLED : EnvValue;
  env_BEARER_TOKEN : option string;
  env_NODE_ENV : option string;
  env_MCP_PROTOCOL_VERSION : EnvValue
}.

(** The fields of [UnifiedConfig] that the gate reads. *)
Record UnifiedConfig : Type := {
  NODE_ENV : string;
  MCP_PROTOCOL_VERSION : string;
  AUTH_STRATEGY : AuthStrategyType;
  AUTH_ENABLED : bool;
  BEARER_TOKEN : option string
}.

(** [String(value || 'false').toLowerCase() === 'true'] *)
Definition parseBoolean (value : EnvValue) : bool :=
  bool_decide (Js.toLowerCase (stringOr value "false") = "true").

(** [(env.AUTH_STRATEGY as string)?.toLowerCase()] *)
Definition explicitStrategy (env : RawEnv) : option string :=
  Js.toLowerCase <$> env_AUTH_STRATEGY env.

(** [env.AUTH_ENABLED === 'false' || env.AUTH_ENABLED === false] *)
Definition explicitlyDisabled (env : RawEnv) : bool :=
  match env_AUTH_ENABLED env with
  | EStr s => bool_decide (s = "false")
  | EBool b => negb b
  | _ => false
  end.

Definition parseAuthStrategy (env : RawEnv) : AuthStrategyType :=
  let explicit := explicitStrategy env in
  if bool_decide (explicit = Some "none") || explicitlyDisabled env then none
  else if Js.truthyOpt (env_BEARER_TOKEN env)
          || parseBoolean (env_AUTH_ENABLED env) then bearer
  else none.

Definition parseConfig (env : RawEnv) : UnifiedConfig :=
  let authStrategy := parseAuthStrategy env in
  {| NODE_ENV := if Js.truthyOpt (env_NODE_ENV env)
                 then default "" (env_NODE_ENV env) else "development";
     MCP_PROTOCOL_VERSION := stringOr (env_MCP_PROTOCOL_VERSION env) "2025-06-18";
     AUTH_STRATEGY := authStrategy;
     AUTH_ENABLED := bool_decide (authStrategy = bearer);
     BEARER_TOKEN := env_BEARER_TOKEN env |}.

End Config.


(** ** Session stores *)

Module Storage.

(** [SessionRecord] *)
Record SessionRecord : Type := { created_at : Z }.

#[export] Instance SessionRecord_eq_dec : EqDecision SessionRecord.
Proof. solve_decision. Defined.

(** *** [MemorySessionStore]: the in-memory store with TTL *)

(** A value of the [sessions] map. *)
Record SessionEntry : Type := { record : SessionRecord; expiresAt : Z }.

(** [24 * 60 * 60 * 1000] *)
Definition DEFAULT_TTL_MS : Z := 24 * 60 * 60 * 1000.
(** [5 * 60 * 1000] *)
Definition CLEANUP_INTERVAL_MS : Z := 5 * 60 * 1000.

(** The fields of a [MemorySessionStore]; the timer handle
    [cleanupInterval] holds no session data and is left out. *)
Record MemorySessionStore : Type := {
  sessions : gmap string SessionEntry;
  ttlMs : Z
}.

(** [new MemorySessionStore(ttlMs)] *)
Definition newMemorySessionStore (ttl : Z) : MemorySessionStore :=
  {| sessions := ∅; ttlMs := ttl |}.

Definition setSessions (st : MemorySessionStore)
  (m : gmap string SessionEntry) : MemorySessionStore :=
  {| sessions := m; ttlMs := ttlMs st |}.

Module Memory.

Definition ensure (st : MemorySessionStore) (sessionId : string) (now : Z)
  : MemorySessionStore :=
  match sessions st !! sessionId with
  | Some _ => st
  | None =>
      setSessions st
        (<[sessionId := {| record := {| created_at := now |};
                           expiresAt := now + ttlMs st |}]> (sessions st))
  end.

Definition get (st : MemorySessionStore) (sessionId : string) (now : Z)
  : MemorySessionStore * option SessionRecord :=
  match sessions st !! sessionId with
  | None => (st, None)
  | Some entry =>
      if now >? expiresAt entry
      then (setSessions st (delete sessionId (sessions st)), None)
      else (st, Some (record entry))
  end.

Definition put (st : MemorySessionStore) (sessionId : string)
  (value : SessionRecord) (now : Z) : MemorySessionStore :=
  setSessions st
    (<[sessionId := {| record := value; expiresAt := now + ttlMs st |}]>
       (sessions st)).

Definition delete (st : MemorySessionStore) (sessionId : string)
  : MemorySessionStore :=
  setSessions st (base.delete sessionId (sessions st)).

(** One run of the periodic sweep installed by [startCleanup]. *)
Definition cleanup (st : MemorySessionStore) (now : Z) : MemorySessionStore :=
  setSessions st
    (filter (fun kv => negb (now >? expiresAt (snd kv)) = true) (sessions st)).

End Memory.

(** *** [KvSessionStore]: the store backed by an external key-value service *)

(** [24 * 60 * 60] *)
Definition SESSION_TTL_SECONDS : Z := 24 * 60 * 60.

(** [interface KVNamespace]: the external service, with [K] the state it
    keeps. Every operation may throw; [get] reads the state and leaves it
    alone; [put] and [delete] return the state they leave behind, whether
    they throw or not. *)
Class KVNamespace (K : Type) : Type := {
  kv_get : K -> string -> outcome (option string);
  kv_put : K -> string -> string -> Z -> K * outcome unit;
  kv_delete : K -> string -> K * outcome unit
}.

(** [interface KvOptions] without the fallback, and the platform's JSON
    codec at type [SessionRecord]. [JSON_parse] returns [None] for the text
    [null]. *)
Class KvCodec : Type := {
  encrypt : string -> outcome string;
  decrypt : string -> outcome string;
  JSON_stringify : SessionRecord -> string;
  JSON_parse : string -> outcome (option SessionRecord)
}.

(** The mutable fields of a [KvSessionStore]. *)
Record KvSessionStore (K : Type) : Type := {
  kv : K;
  fallback : option MemorySessionStore
}.
Arguments kv {K} _.
Arguments fallback {K} _.

Module Kv.
Section KvOps.
Context {K : Type} `{!KVNamespace K} `{!KvCodec}.

(** [`session:${sessionId}`] *)
Definition key (sessionId : string) : string := "session:" +:+ sessionId.

(** [this.fallback?.get(sessionId) ?? null] *)
Definition fallbackGet (st : KvSessionStore K) (sessionId : string) (now : Z)
  : KvSessionStore K * option SessionRecord :=
  match fallback st with
  | Some fb =>
      let '(fb', r) := Memory.get fb sessionId now in
      ({| kv := kv st; fallback := Some fb' |}, r)
  | None => (st, None)
  end.

(** [if (this.fallback) await this.fallback.put(sessionId, value)], on the
    service state [k]. *)
Definition fallbackPut (k : K) (fb : option MemorySessionStore)
  (sessionId : string) (value : SessionRecord) (now : Z) : KvSessionStore K :=
  {| kv := k; fallback := (fun m => Memory.put m sessionId value now) <$> fb |}.

(** The [try] block of [get]: what it returns, or the error it throws. *)
Definition readDurable (st : KvSessionStore K) (sessionId : string)
  : outcome (option (option SessionRecord)) :=
  raw ← kv_get (kv st) (key sessionId);
  if Js.truthyOpt raw then
    decrypted ← decrypt (default "" raw);
    parsed ← JSON_parse decrypted;
    mret (Some parsed)
  else mret None.

(** [get]: [Date.now()] is read by the fallback only. *)
Definition get (st : KvSessionStore K) (sessionId : string) (now : Z)
  : KvSessionStore K * option SessionRecord :=
  match readDurable st sessionId with
  | Returns (Some parsed) => (st, parsed)
  | Returns None => fallbackGet st sessionId now
  | Throws _ => fallbackGet st sessionId now
  end.

(** [put]: both the [try] block and the [catch] block end with the write
    to the fallback. *)
Definition put (st : KvSessionStore K) (sessionId : string)
  (value : SessionRecord) (now : Z) : KvSessionStore K :=
  match encrypt (JSON_stringify value) with
  | Throws _ => fallbackPut (kv st) (fallback st) sessionId value now
  | Returns encrypted =>
      let '(k', _) :=
        kv_put (kv st) (key sessionId) encrypted SESSION_TTL_SECONDS in
      fallbackPut k' (fallback st) sessionId value now
  end.

(** [ensure]: the clock is read by [get] (at [tGet]), by [ensure] itself
    for [created_at] (at [tNow]) and by [put] (at [tPut]). *)
Definition ensure (st : KvSessionStore K) (sessionId : string)
  (tGet tNow tPut : Z) : KvSessionStore K :=
  let '(st', existing) := get st sessionId tGet in
  match existing with
  | Some _ => st'
  | None => put st' sessionId {| created_at := tNow |} tPut
  end.

Definition delete (st : KvSessionStore K) (sessionId : string)
  : KvSessionStore K :=
  let '(k', _) := kv_delete (kv st) (key sessionId) in
  {| kv := k'; fallback := (fun m => Memory.delete m sessionId) <$> fallback st |}.

End KvOps.
End Kv.

End Storage.

(** ** The request gate *)

Module Gate.
Import Config.

(** A [Headers] object: header names are case-insensitive, so the map is
    keyed by the lower-cased name. *)
Definition headerGet (h : gmap string string) (name : string) : option string :=
  h !! Js.toLowerCase name.

(** What the gate reads of a request: the origin of its URL
    ([new URL(request.url).origin]) and its headers. *)
Record Request : Type := {
  url_origin : string;
  req_headers : gmap string string
}.

(** The JSON-RPC error object [{ jsonrpc: '2.0', error: { code, message },
    id: null }]. *)
Record JsonRpcError : Type := { error_code : Z; error_message : string }.

(** A response: status, the headers the adapter sets (in the order it sets
    them) and the body. *)
Record Response : Type := {
  status : Z;
  resp_headers : list (string * string);
  body : JsonRpcError
}.

(** The value of a response header. *)
Definition respHeader (r : Response) (name : string) : option string :=
  snd <$> List.find
    (fun kv => bool_decide (Js.toLowerCase (fst kv) = Js.toLowerCase name))
    (resp_headers r).

(** The value returned by [buildUnauthorizedChallenge]. *)
Record Challenge : Type := {
  ch_status : Z;
  ch_www_authenticate : string;
  ch_body : JsonRpcError
}.

(** The context attached to an admitted request by the Hono middleware. *)
Record AuthContext : Type := {
  strategy : AuthStrategyType;
  authHeaders : list (string * string);
  resolvedHeaders : list (string * string)
}.

(** The functions of [shared/mcp/security.js] and [shared/http/cors.js]
    that the adapters call and whose text is not part of the sources at
    hand. The validators return or throw; [unauthorizedCode] and
    [unauthorizedMessage] are the JSON-RPC code of a challenge and the
    message it carries when the adapter passes none. *)
Class SecurityLib : Type := {
  validateOrigin : gmap string string -> bool -> outcome unit;
  validateProtocolVersion : gmap string string -> string -> outcome unit;
  unauthorizedCode : Z;
  unauthorizedMessage : string;
  withCors : Response -> Response
}.

(** The double quote character (U+0022). *)
Definition dquote : string := String (ascii_of_nat 34) EmptyString.

Section Adapters.
Context `{!SecurityLib}.

(** Modelled from the spec: [buildUnauthorizedChallenge] of
    [shared/mcp/security.js] is not among the sources. The spec gives the
    challenge as status 401, a header WWW-Authenticate whose value is
    Bearer realm=MCP, followed by , error=<reason> when there is a reason
    (both values between double quotes), and a JSON-RPC error body
    carrying the message. *)
Definition buildUnauthorizedChallenge (origin sid : string)
  (message : option string) : Challenge :=
  {| ch_status := 401;
     ch_www_authenticate :=
       "Bearer realm=" +:+ dquote +:+ "MCP" +:+ dquote +:+
       match message with
       | Some m => ", error=" +:+ dquote +:+ m +:+ dquote
       | None => ""
       end;
     ch_body := {| error_code := unauthorizedCode;
                   error_message := default unauthorizedMessage message |} |}.

(** [validateOrigin(...); validateProtocolVersion(...)] *)
Definition validateRequest (config : UnifiedConfig) (h : gmap string string)
  : outcome unit :=
  validateOrigin h (bool_decide (NODE_ENV config = "development"));;
  validateProtocolVersion h (MCP_PROTOCOL_VERSION config).

(** The two ways in which [validateRequest] throws: the origin check
    throws, or it returns and the protocol-version check throws. *)
Definition validationFails (cfg : UnifiedConfig) (req : Request)
  (msg : string) : Prop :=
  let isDev := bool_decide (NODE_ENV cfg = "development") in
  validateOrigin (req_headers req) isDev = Throws msg
  \/ (validateOrigin (req_headers req) isDev = Returns tt
      /\ validateProtocolVersion (req_headers req) (MCP_PROTOCOL_VERSION cfg)
         = Throws msg).

(** [!config.AUTH_ENABLED || config.AUTH_STRATEGY === 'none'] *)
Definition noAuthRequired (config : UnifiedConfig) : bool :=
  negb (AUTH_ENABLED config) || bool_decide (AUTH_STRATEGY config = none).

End Adapters.

(** *** The Hono middleware: [middleware.security.ts] *)

Module Hono.
Section Hono.
Context `{!SecurityLib}.

(** What the middleware does with a request: call [next()], with the
    [authContext] it attached if any, or answer itself. *)
Inductive Result : Type :=
| Next (ctx : option AuthContext)
| Reply (r : Response).

(** [c.json(object, status)]: the response carries the headers set on the
    context so far with [c.header], then the JSON content type that
    [c.json] adds, and the object as its body. *)
Definition json (headers : list (string * string)) (object : JsonRpcError)
  (code : Z) : Response :=
  {| status := code;
     resp_headers := headers ++ [("Content-Type", "application/json")];
     body := object |}.

(** [challengeResponse]: [c.header] twice, then [c.json]. *)
Definition challengeResponse (origin sid : string) (message : option string)
  : Response :=
  let challenge := buildUnauthorizedChallenge origin sid message in
  json [("Mcp-Session-Id", sid);
        ("WWW-Authenticate", ch_www_authenticate challenge)]
       (ch_body challenge) (ch_status challenge).

(** The [catch] block: [c.json] with status 500 and code -32603, on a
    context where no header was set. *)
Definition internalError (msg : string) : Response :=
  json []
       {| error_code := -32603;
          error_message := if Js.truthy msg then msg
                           else "Internal server error" |}
       500.

(** [const [scheme, token] = auth.split(' ', 2);
     const bearer = scheme?.toLowerCase() === 'bearer' ? token?.trim() : '';]
    [None] is [undefined]. *)
Definition extractBearer (auth : string) : option string :=
  let parts := Js.splitLimit " " 2 auth in
  let scheme := parts !! 0%nat in
  let token := parts !! 1%nat in
  if bool_decide (Js.toLowerCase <$> scheme = Some "bearer")
  then Js.trim <$> token
  else Some "".

(** The code after the two validations, inside the [try] block. *)
Definition authorize (config : UnifiedConfig) (req : Request) (uuid : string)
  : Result :=
  if noAuthRequired config then Next None
  else
    let auth := headerGet (req_headers req) "Authorization" in
    let sid := default uuid (headerGet (req_headers req) "Mcp-Session-Id") in
    let origin := url_origin req in
    if negb (Js.truthyOpt auth) then Reply (challengeResponse origin sid None)
    else
      let bearer := extractBearer (default "" auth) in
      if negb (Js.truthyOpt bearer)
      then Reply (challengeResponse origin sid (Some "Bearer token required"))
      else
        match AUTH_STRATEGY config with
        | Config.bearer =>
            if negb (Js.truthyOpt (BEARER_TOKEN config))
            then Reply (challengeResponse origin sid
                          (Some "Server misconfigured"))
            else if bool_decide (bearer ≠ BEARER_TOKEN config)
            then Reply (challengeResponse origin sid (Some "Invalid token"))
            else
              let a := default "" auth in
              Next (Some {| strategy := Config.bearer;
                            authHeaders := [("authorization", a)];
                            resolvedHeaders := [("authorization", a)] |})
        | Config.none => Next None
        end.

(** The handler returned by [createMcpSecurityMiddleware(config)]; [uuid]
    is what [randomUUID()] returns if it is called. *)
Definition createMcpSecurityMiddleware (config : UnifiedConfig)
  (req : Request) (uuid : string) : Result :=
  tryCatch
    (validateRequest config (req_headers req);;
     mret (authorize config req uuid))
    (fun msg => Reply (internalError msg)).

End Hono.
End Hono.

(** *** The Workers handler: [checkAuthAndChallenge] *)

Module Workers.
Section Workers.
Context `{!SecurityLib}.

(** [buildChallengeResponse] *)
Definition buildChallengeResponse (origin sid : string)
  (message : option string) : Response :=
  let challenge := buildUnauthorizedChallenge origin sid message in
  withCors
    {| status := ch_status challenge;
       resp_headers := [("Content-Type", "application/json");
                        ("Mcp-Session-Id", sid);
                        ("WWW-Authenticate", ch_www_authenticate challenge)];
       body := ch_body challenge |}.

(** [authHeader?.match(/^\s*Bearer\s+(.+)$/i)?.[1]?.trim()] *)
Definition extractBearer (authHeader : option string) : option string :=
  Js.trim <$> (authHeader ≫= Js.matchBearer).

(** [checkAuthAndChallenge]: [None] is [null], the request is authorized. *)
Definition checkAuthAndChallenge (request : Request) (config : UnifiedConfig)
  (sid : string) : option Response :=
  let origin := url_origin request in
  match validateRequest config (req_headers request) with
  | Throws msg => Some (buildChallengeResponse origin sid (Some msg))
  | Returns _ =>
      if noAuthRequired config then None
      else
        let authHeader := headerGet (req_headers request) "Authorization" in
        let bearer := extractBearer authHeader in
        if negb (Js.truthyOpt bearer)
        then Some (buildChallengeResponse origin sid None)
        else
          match AUTH_STRATEGY config with
          | Config.bearer =>
              if negb (Js.truthyOpt (BEARER_TOKEN config))
              then Some (buildChallengeResponse origin sid
                           (Some "Server misconfigured: BEARER_TOKEN not set"))
              else if bool_decide (bearer ≠ BEARER_TOKEN config)
              then Some (buildChallengeResponse origin sid
                           (Some "Invalid token"))
              else None
          | Config.none => None
          end
  end.

End Workers.
End Workers.

End Gate.

(** ** The validators, as the spec describes them *)

Module SpecModel.
Import Gate.

(** [s] without the prefix [p], when it has it. *)
Fixpoint stripPrefix (p s : string) : option string :=
  match p, s with
  | EmptyString, _ => Some s
  | String a p', String b s' =>
      if Ascii.eqb a b then stripPrefix p' s' else None
  | String _ _, EmptyString => None
  end.

(** The host of an origin [scheme://host[:port]]: what precedes the first
    colon after the scheme. *)
Definition originHost (origin : string) : option string :=
  match stripPrefix "http://" origin, stripPrefix "https://" origin with
  | Some rest, _ | None, Some rest => head (Js.split ":" rest)
  | None, None => None
  end.

(** A loopback origin: host [localhost] or [127.0.0.1]. *)
Definition isLoopbackOrigin (origin : string) : bool :=
  bool_decide (originHost origin = Some "localhost")
  || bool_decide (originHost origin = Some "127.0.0.1").

(** Modelled from the spec: [validateOrigin] of [shared/mcp/security.js] is
    not among the sources. The spec: the request's Origin header must match
    an allowed value, a loopback address unless the relaxed (development)
    mode is active; failure rejects. The spec does not say what becomes of
    a request that sends no Origin header; here it has nothing to match and
    passes, and nothing below depends on that. The error carries the name
    the spec gives this failure. *)
Definition validateOrigin (h : gmap string string) (isDev : bool)
  : outcome unit :=
  if isDev then Returns tt
  else match headerGet h "Origin" with
       | Some origin =>
           if isLoopbackOrigin origin then Returns tt
           else Throws "OriginRejected"
       | None => Returns tt
       end.

(** Modelled from the spec: [validateProtocolVersion] of
    [shared/mcp/security.js] is not among the sources. The spec: if a
    protocol-version header is present, it must equal the single version
    this server supports; failure rejects. *)
Definition validateProtocolVersion (h : gmap string string)
  (supported : string) : outcome unit :=
  match headerGet h "Mcp-Protocol-Version" with
  | Some v => if bool_decide (v = supported) then Returns tt
              else Throws "ProtocolVersionMismatch"
  | None => Returns tt
  end.

(** An instance of the library for the examples below. The spec does not
    describe [withCors], [unauthorizedCode] or [unauthorizedMessage]; the
    instance decorates a response with one CORS header and keeps the rest,
    and uses the JSON-RPC server-error code -32000. *)
#[export] Instance lib : SecurityLib := {|
  Gate.validateOrigin := validateOrigin;
  Gate.validateProtocolVersion := validateProtocolVersion;
  unauthorizedCode := -32000;
  unauthorizedMessage := "Unauthorized";
  withCors := fun r =>
    {| status := status r;
       resp_headers := resp_headers r ++ [("Access-Control-Allow-Origin", "*")];
       body := body r |}
|}.

End SpecModel.

(** ** Well-formed bearer credentials *)

Module Credentials.

(** [s] does not contain the character [c]. *)
Fixpoint avoids (c : ascii) (s : string) : bool :=
  match s with
  | EmptyString => true
  | String a r => negb (Ascii.eqb a c) && avoids c r
  end.

(** Every character of [s] is below U+0080. *)
Fixpoint allAscii (s : string) : bool :=
  match s with
  | EmptyString => true
  | String a r => (N_of_ascii a <? 128)%N && allAscii r
  end.

Fixpoint noWhiteSpace (s : string) : bool :=
  match s with
  | EmptyString => true
  | String a r => negb (Js.isWhiteSpace a) && noWhiteSpace r
  end.

(** Every character of [s] is white space. *)
Fixpoint allWhiteSpace (s : string) : bool :=
  match s with
  | EmptyString => true
  | String a r => Js.isWhiteSpace a && allWhiteSpace r
  end.

(** A token: not empty, no white space. *)
Definition isToken (tok : string) : bool := Js.truthy tok && noWhiteSpace tok.

(** [auth] is the header value [Bearer <tok>]: the scheme in any
    capitalisation, one space, the token. *)
Definition isBearerHeader (auth tok : string) : Prop :=
  ∃ scheme, Js.toLowerCase scheme = "bearer"
            ∧ auth = scheme +:+ " " +:+ tok
            ∧ isToken tok = true.

End Credentials.


(** ** Sample inputs *)

Module Samples.
Import Config Gate.

(** [strategy = bearer], secret [abc123], production mode. *)
Definition bearerEnv : RawEnv :=
  {| env_AUTH_STRATEGY := None;
     env_AUTH_ENABLED := EUndefined;
     env_BEARER_TOKEN := Some "abc123";
     env_NODE_ENV := Some "production";
     env_MCP_PROTOCOL_VERSION := EUndefined |}.

(** [AUTH_STRATEGY=none], production mode. *)
Definition openEnv : RawEnv :=
  {| env_AUTH_STRATEGY := Some "none";
     env_AUTH_ENABLED := EUndefined;
     env_BEARER_TOKEN := None;
     env_NODE_ENV := Some "production";
     env_MCP_PROTOCOL_VERSION := EUndefined |}.

(** A request to [http://127.0.0.1:3000] with the given headers. *)
Definition request (h : list (string * string)) : Request :=
  {| url_origin := "http://127.0.0.1:3000"; req_headers := list_to_map h |}.

Definition localOrigin : string * string := ("origin", "http://127.0.0.1").
Definition foreignOrigin : string * string := ("origin", "http://evil.example").
Definition authorization (v : string) : string * string := ("authorization", v).
Definition sessionId (v : string) : string * string := ("mcp-session-id", v).

End Samples.

(** ** Sample services and codec *)

Module StoreSamples.
Import Storage.

(** A service that is down: every operation throws. *)
#[export] Instance downService : KVNamespace unit := {|
  kv_get := fun _ _ => Throws "service unavailable";
  kv_put := fun k _ _ _ => (k, Throws "service unavailable");
  kv_delete := fun k _ => (k, Throws "service unavailable")
|}.

(** A service that works: a map from keys to stored texts. *)
#[export] Instance mapService : KVNamespace (gmap string string) := {|
  kv_get := fun k key => Returns (k !! key);
  kv_put := fun k key v _ => (<[key := v]> k, Returns tt);
  kv_delete := fun k key => (delete key k, Returns tt)
|}.

(** The JSON text of a record: an object with the one member
    [created_at]. *)
Definition recordPrefix : string :=
  "{" +:+ Gate.dquote +:+ "created_at" +:+ Gate.dquote +:+ ":".

Definition recordText (r : SessionRecord) : string :=
  recordPrefix +:+ NilZero.string_of_int (Z.to_int (created_at r)) +:+ "}".

(** Reading that text back; [null] is accepted too, anything else is a
    syntax error. *)
Definition readRecord (s : string) : outcome (option SessionRecord) :=
  if bool_decide (s = "null") then Returns None
  else
    match SpecModel.stripPrefix recordPrefix s with
    | Some rest =>
        match SpecModel.stripPrefix "}" (String.rev rest) with
        | Some digits =>
            match NilZero.int_of_string (String.rev digits) with
            | Some i => Returns (Some {| created_at := Z.of_int i |})
            | None => Throws "SyntaxError"
            end
        | None => Throws "SyntaxError"
        end
    | None => Throws "SyntaxError"
    end.

(** A codec for the examples: the cipher changes nothing. *)
#[export] Instance plainCodec : KvCodec := {|
  encrypt := Returns;
  decrypt := Returns;
  JSON_stringify := recordText;
  JSON_parse := readRecord
|}.

(** A store on the service that is down, with an empty fallback of the
    default time to live. *)
Definition degradedStore : KvSessionStore unit :=
  {| kv := tt; fallback := Some (newMemorySessionStore DEFAULT_TTL_MS) |}.

(** A store on the working service, without fallback. *)
Definition durableStore : KvSessionStore (gmap string string) :=
  {| kv := ∅; fallback := None |}.

(** The state of a service that keeps what is written to it and fails on
    every read. *)
Record Unreadable : Type := { written : gmap string string }.

(** A service whose reads fail while its writes work: [get] throws, [put]
    and [delete] act on the stored texts. *)
#[export] Instance unreadableService : KVNamespace Unreadable := {|
  kv_get := fun _ _ => Throws "read failed";
  kv_put := fun k key v _ =>
    ({| written := <[key := v]> (written k) |}, Returns tt);
  kv_delete := fun k key =>
    ({| written := delete key (written k) |}, Returns tt)
|}.

(** A store on that service, without fallback. *)
Definition unreadableStore : KvSessionStore Unreadable :=
  {| kv := {| written := ∅ |}; fallback := None |}.

End StoreSamples.

(** ** More string primitives *)

Module JsMore.

(** [s.startsWith(p)] *)
Fixpoint startsWith (p s : string) : bool :=
  match p, s with
  | EmptyString, _ => true
  | String a p', String b s' => Ascii.eqb a b && startsWith p' s'
  | String _ _, EmptyString => false
  end.

(** [s.slice(n)] for a count [n] that is not negative. *)
Fixpoint sliceFrom (n : nat) (s : string) : string :=
  match n, s with
  | O, _ => s
  | S n', String _ s' => sliceFrom n' s'
  | S _, EmptyString => EmptyString
  end.

(** [pieces.join(sep)] *)
Fixpoint join (sep : string) (pieces : list string) : string :=
  match pieces with
  | [] => EmptyString
  | [piece] => piece
  | piece :: rest => piece +:+ sep +:+ join sep rest
  end.

End JsMore.

(** ** The bearer helpers: [src/config/auth.ts] *)

Module BearerHelpers.
Import Gate.

(** [validateBearer]: [null] is [None]. *)
Definition validateBearer (headers : gmap string string) : option string :=
  let first := headerGet headers "Authorization" in
  let auth := if Js.truthyOpt first then first
              else headerGet headers "authorization" in
  if negb (Js.truthyOpt auth)
     || negb (JsMore.startsWith "Bearer " (default "" auth))
  then None
  else Some (Js.trim (JsMore.sliceFrom (String.length "Bearer ")
                        (default "" auth))).

(** The answer of [requireBearerOr401] when there is no token. *)
Definition unauthorized : Response :=
  {| status := 401;
     resp_headers := [("WWW-Authenticate",
                       "Bearer realm=" +:+ dquote +:+ "MCP" +:+ dquote)];
     body := {| error_code := -32000; error_message := "Unauthorized" |} |}.

(** [requireBearerOr401]: the token, or the response. *)
Definition requireBearerOr401 (headers : gmap string string)
  : string + Response :=
  let token := validateBearer headers in
  if negb (Js.truthyOpt token) then inr unauthorized
  else inl (default "" token).

End BearerHelpers.

(** ** The strategy module: the auth strategy pattern *)

Module Strategy.
Import Config.

(** [AuthStrategyConfig] *)
Record AuthStrategyConfig : Type := {
  type : AuthStrategyType;
  value : option string
}.

(** [ResolvedAuth] *)
Record ResolvedAuth : Type := {
  strategy : AuthStrategyType;
  headers : list (string * string);
  accessToken : option string
}.

(** [parseAuthStrategy] of the strategy module: bearer unless switched
    off. *)
Definition parseAuthStrategy (env : RawEnv) : AuthStrategyConfig :=
  let strategy := Js.toLowerCase <$> env_AUTH_STRATEGY env in
  if bool_decide (strategy = Some "none") || explicitlyDisabled env
  then {| type := none; value := None |}
  else {| type := bearer; value := env_BEARER_TOKEN env |}.

Definition buildAuthHeaders (_strategyConfig : AuthStrategyConfig)
  : list (string * string) := [].

Definition resolveStaticAuth (strategyConfig : AuthStrategyConfig)
  : ResolvedAuth :=
  {| strategy := type strategyConfig;
     headers := [];
     accessToken := match type strategyConfig with
                    | bearer => value strategyConfig
                    | none => None
                    end |}.

Definition requiresAuth (config : AuthStrategyConfig) : bool :=
  bool_decide (type config <> none).

Definition validateAuthConfig (config : AuthStrategyConfig) : list string :=
  if bool_decide (type config = bearer) && negb (Js.truthyOpt (value config))
  then ["BEARER_TOKEN is required when AUTH_STRATEGY=bearer"]
  else [].

(** [validateBearerToken]: the group of the match is compared as it is,
    without trimming. *)
Definition validateBearerToken (authHeader expectedToken : option string)
  : bool :=
  if negb (Js.truthyOpt expectedToken) then false
  else if negb (Js.truthyOpt authHeader) then false
  else
    let token := authHeader ≫= Js.matchBearer in
    bool_decide (token = expectedToken).

End Strategy.

(** ** More of the configuration reader *)

Module ConfigMore.
Import Config.

(** [parseStringArray]:
    [String(value || '').split(',').map((s) => s.trim()).filter(Boolean)] *)
Definition parseStringArray (value : EnvValue) : list string :=
  List.filter Js.truthy (List.map Js.trim (Js.split "," (stringOr value ""))).

(** A name as [parseStringArray] leaves it: not empty, nothing to trim,
    no comma. *)
Definition cleanName (x : string) : Prop :=
  x <> "" /\ Js.trim x = x /\ Credentials.avoids "," x = true.

End ConfigMore.

(** ** The auth header middleware *)

Module AuthHeaders.
Import Config.

(** The context the middleware attaches: the forwarded headers are an
    object, here a map. *)
Record AuthContext : Type := {
  strategy : AuthStrategyType;
  authHeaders : gmap string string;
  resolvedHeaders : gmap string string
}.

(** The three names that are always accepted. *)
Definition standardAuthHeaders : list string :=
  ["authorization"; "x-api-key"; "x-auth-token"].

(** The set [accept]: the configured names in lower case, and the standard
    ones. *)
Definition acceptSet (acceptHeaders : list string) : gset string :=
  list_to_set (List.map Js.toLowerCase acceptHeaders)
  ∪ list_to_set standardAuthHeaders.

(** [forwarded[lower] = v]. An assignment to the name [__proto__] of an
    object literal reaches the prototype setter, which ignores a string, so
    it adds no property. *)
Definition assign (forwarded : gmap string string) (lower v : string)
  : gmap string string :=
  if bool_decide (lower = "__proto__") then forwarded
  else <[lower := v]> forwarded.

(** The loop over the incoming headers, in the order the iterator yields
    them. *)
Fixpoint forward (accept : gset string) (incoming : list (string * string))
  (forwarded : gmap string string) : gmap string string :=
  match incoming with
  | [] => forwarded
  | (k, v) :: rest =>
      let lower := Js.toLowerCase k in
      forward accept rest
        (if bool_decide (lower ∈ accept) then assign forwarded lower v
         else forwarded)
  end.

(** The handler returned by [createAuthHeaderMiddleware()], for a
    configuration with the given [MCP_ACCEPT_HEADERS] and [AUTH_STRATEGY]:
    the context it attaches before it calls [next()]. *)
Definition createAuthHeaderMiddleware (acceptHeaders : list string)
  (strategy : AuthStrategyType) (incoming : list (string * string))
  : AuthContext :=
  let forwarded := forward (acceptSet acceptHeaders) incoming ∅ in
  {| strategy := strategy;
     authHeaders := forwarded;
     resolvedHeaders := forwarded |}.

End AuthHeaders.

(** ** More sample inputs *)

Module MoreSamples.
Import Config Gate Storage.

(** Nothing is set. *)
Definition emptyEnv : RawEnv :=
  {| env_AUTH_STRATEGY := None;
     env_AUTH_ENABLED := EUndefined;
     env_BEARER_TOKEN := None;
     env_NODE_ENV := None;
     env_MCP_PROTOCOL_VERSION := EUndefined |}.

(** [AUTH_ENABLED=true] and no secret. *)
Definition enabledNoSecretEnv : RawEnv :=
  {| env_AUTH_STRATEGY := None;
     env_AUTH_ENABLED := EStr "true";
     env_BEARER_TOKEN := None;
     env_NODE_ENV := None;
     env_MCP_PROTOCOL_VERSION := EUndefined |}.

(** A store with a time to live of 1000 ms that holds one session written
    at time 0. *)
Definition oneSession : MemorySessionStore :=
  Memory.put (newMemorySessionStore 1000) "s-1" {| created_at := 0 |} 0.

(** Incoming headers, as the iterator yields them. *)
Definition incomingHeaders : list (string * string) :=
  [("authorization", "Bearer abc123"); ("cookie", "c=1"); ("x-custom", "1")].

End MoreSamples.

(** * Properties *)

(** ** Facts about the string primitives *)

Module JsFacts.
Import Js Credentials.

Ltac by_cases_on_char a :=
  destruct a as [[] [] [] [] [] [] [] []]; vm_compute; congruence.

Lemma lowerChar_below_128 (a : ascii) :
  (N_of_ascii (lowerChar a) <? 128)%N = true ->
  (N_of_ascii a <? 128)%N = true.
Proof. by_cases_on_char a. Qed.

Lemma whiteSpace_lowerChar (a : ascii) :
  isWhiteSpace a = true -> lowerChar a = a.
Proof. by_cases_on_char a. Qed.

Lemma whiteSpace_space : isWhiteSpace " " = true.
Proof. reflexivity. Qed.

Lemma lineTerminator_whiteSpace (a : ascii) :
  isLineTerminator a = true -> isWhiteSpace a = true.
Proof. by_cases_on_char a. Qed.

Lemma noWhiteSpace_avoids_space (s : string) :
  noWhiteSpace s = true -> avoids " " s = true.
Proof.
  induction s as [|a r IH]; simpl; [done|].
  intros [Ha Hr]%andb_prop. rewrite (IH Hr), andb_true_r.
  destruct (Ascii.eqb_spec a " ") as [->|]; [discriminate Ha | done].
Qed.

Lemma noWhiteSpace_noLineTerminator (s : string) :
  noWhiteSpace s = true -> noLineTerminator s = true.
Proof.
  induction s as [|a r IH]; simpl; [done|].
  intros [Ha Hr]%andb_prop. rewrite (IH Hr), andb_true_r.
  destruct (isLineTerminator a) eqn:E; [|done].
  apply lineTerminator_whiteSpace in E. by rewrite E in Ha.
Qed.

Lemma trimStart_noWhiteSpace (s : string) :
  noWhiteSpace s = true -> trimStart s = s.
Proof.
  destruct s as [|a r]; simpl; [done|].
  intros [Ha _]%andb_prop. by destruct (isWhiteSpace a).
Qed.

Lemma trimEnd_noWhiteSpace (s : string) :
  noWhiteSpace s = true -> trimEnd s = s.
Proof.
  induction s as [|a r IH]; simpl; [done|].
  intros [Ha Hr]%andb_prop. rewrite (IH Hr).
  destruct r; [|done]. by destruct (isWhiteSpace a).
Qed.

(** [trim] leaves a string without white space alone. *)
Lemma trim_noWhiteSpace (s : string) : noWhiteSpace s = true -> trim s = s.
Proof.
  intros H. unfold trim. rewrite (trimStart_noWhiteSpace _ H).
  by apply trimEnd_noWhiteSpace.
Qed.

Lemma split_avoids (sep : ascii) (s : string) :
  avoids sep s = true -> split sep s = [s].
Proof.
  induction s as [|a r IH]; simpl; [done|].
  intros [Ha Hr]%andb_prop. rewrite (IH Hr).
  by destruct (Ascii.eqb a sep).
Qed.

Lemma split_app_sep (sep : ascii) (s t : string) :
  avoids sep s = true ->
  split sep (s +:+ String sep t) = s :: split sep t.
Proof.
  induction s as [|a r IH]; simpl.
  - intros _. by rewrite Ascii.eqb_refl.
  - intros [Ha Hr]%andb_prop. rewrite (IH Hr).
    by destruct (Ascii.eqb a sep).
Qed.

Lemma toLowerCase_avoids_space (s : string) :
  avoids " " (toLowerCase s) = true -> avoids " " s = true.
Proof.
  induction s as [|a r IH]; simpl; [done|].
  intros [Ha Hr]%andb_prop. rewrite (IH Hr), andb_true_r.
  destruct (Ascii.eqb_spec a " ") as [->|]; [discriminate Ha | done].
Qed.

Lemma toLowerCase_noWhiteSpace_head (a : ascii) (r : string) :
  noWhiteSpace (toLowerCase (String a r)) = true -> isWhiteSpace a = false.
Proof.
  simpl. intros [Ha _]%andb_prop.
  destruct (isWhiteSpace a) eqn:E; [|done].
  by rewrite (whiteSpace_lowerChar _ E), E in Ha.
Qed.

(** A literal matches, ignoring case, whatever lower-cases to the same
    ASCII text. *)
Lemma matchLiteralCI_lower (lit s rest : string) :
  allAscii (toLowerCase lit) = true ->
  toLowerCase s = toLowerCase lit ->
  matchLiteralCI lit (s +:+ rest) = Some rest.
Proof.
  revert s. induction lit as [|p lit IH]; intros [|a s]; simpl; try done.
  intros [Hp Hlit]%andb_prop [= Ha Hs].
  unfold eqCI. rewrite Ha, Ascii.eqb_refl. simpl.
  rewrite <- Ha in Hp. rewrite (lowerChar_below_128 _ Hp).
  by apply IH.
Qed.

(** *** The matcher and the expression it stands for

    [matchBearer s] succeeds exactly when [s] reads as white space, the
    word Bearer in any capitalisation, at least one white space character,
    and a non-empty rest without line terminator; the group it returns is
    such a rest. *)

Lemma trimStart_split (s : string) :
  exists ws, s = ws +:+ trimStart s /\ allWhiteSpace ws = true.
Proof.
  induction s as [|a r (ws & Hr & Hws)]; simpl; [by exists ""|].
  destruct (isWhiteSpace a) eqn:E; [|by exists ""].
  exists (String a ws). split; [by rewrite Hr at 1 | simpl; by rewrite E].
Qed.

Lemma matchLiteralCI_split (lit s rest : string) :
  matchLiteralCI lit s = Some rest ->
  exists l, s = l +:+ rest /\ toLowerCase l = toLowerCase lit
            /\ allAscii l = true.
Proof.
  revert s. induction lit as [|p lit IH]; intros s; simpl.
  - intros [= ->]. by exists "".
  - destruct s as [|a s]; [done|]. unfold eqCI.
    destruct (Ascii.eqb_spec (lowerChar a) (lowerChar p)) as [Hap|]; [|done].
    destruct (N_of_ascii a <? 128)%N eqn:Ha; [|done]. simpl.
    intros (l & -> & Hl & Hascii)%IH.
    exists (String a l). simpl. by rewrite Hap, Hl, Ha, Hascii.
Qed.

Lemma matchSpacesThenRest_split (s g : string) :
  matchSpacesThenRest s = Some g ->
  exists ws, s = ws +:+ g /\ ws <> "" /\ allWhiteSpace ws = true
             /\ truthy g = true /\ noLineTerminator g = true.
Proof.
  revert g. induction s as [|a r IH]; intros g; simpl; [done|].
  destruct (isWhiteSpace a) eqn:E; [|done].
  destruct (matchSpacesThenRest r) as [g'|].
  - intros [= <-]. destruct (IH g' eq_refl) as (ws & -> & _ & Hws & Hg).
    exists (String a ws). simpl. by rewrite E, Hws.
  - unfold matchDotPlusEnd.
    destruct (truthy r && noLineTerminator r) eqn:Hr; [|done].
    intros [= <-]. apply andb_prop in Hr as [? ?].
    exists (String a ""). simpl. by rewrite E.
Qed.

Lemma matchSpacesThenRest_found (ws g : string) :
  ws <> "" -> allWhiteSpace ws = true ->
  truthy g = true -> noLineTerminator g = true ->
  is_Some (matchSpacesThenRest (ws +:+ g)).
Proof.
  intros Hne Hws Hg Hlt.
  induction ws as [|a ws IH]; [done|]. simpl in *.
  apply andb_prop in Hws as [Ha Hws]. rewrite Ha.
  destruct ws as [|b ws].
  - change ("" +:+ g) with g. destruct (matchSpacesThenRest g); [by eexists|].
    unfold matchDotPlusEnd. rewrite Hg, Hlt. by eexists.
  - destruct IH as [g' Hg']; [done | done |].
    rewrite Hg'. by eexists.
Qed.

Lemma matchBearer_split (s g : string) :
  matchBearer s = Some g ->
  exists ws word ws',
    s = ws +:+ word +:+ ws' +:+ g
    /\ allWhiteSpace ws = true
    /\ toLowerCase word = "bearer" /\ allAscii word = true
    /\ ws' <> "" /\ allWhiteSpace ws' = true
    /\ truthy g = true /\ noLineTerminator g = true.
Proof.
  unfold matchBearer. destruct (trimStart_split s) as (ws & Hs & Hws).
  destruct (matchLiteralCI "Bearer" (trimStart s)) as [rest|] eqn:Hlit;
    [|done].
  apply matchLiteralCI_split in Hlit as (word & Hword & Hlow & Hascii).
  intros (ws' & -> & Hne & Hws' & Hg & Hlt)%matchSpacesThenRest_split.
  exists ws, word, ws'. rewrite Hs at 1. by rewrite Hword.
Qed.

Lemma matchBearer_found (ws word ws' g : string) :
  allWhiteSpace ws = true ->
  toLowerCase word = "bearer" ->
  ws' <> "" -> allWhiteSpace ws' = true ->
  truthy g = true -> noLineTerminator g = true ->
  is_Some (matchBearer (ws +:+ word +:+ ws' +:+ g)).
Proof.
  intros Hws Hword Hne Hws' Hg Hlt. unfold matchBearer.
  assert (trimStart (ws +:+ word +:+ ws' +:+ g) = word +:+ ws' +:+ g) as ->.
  { induction ws as [|a ws IH]; simpl in *.
    - destruct word as [|b word]; [done|]. simpl.
      by rewrite (toLowerCase_noWhiteSpace_head b word)
        by (by rewrite Hword).
    - apply andb_prop in Hws as [-> Hws]. by apply IH. }
  rewrite (matchLiteralCI_lower "Bearer" word (ws' +:+ g)) by done.
  by apply matchSpacesThenRest_found.
Qed.

End JsFacts.

(** ** Bearer extraction on well-formed headers *)

Module ExtractFacts.
Import Js Credentials JsFacts Gate.

Lemma scheme_shape (scheme : string) :
  toLowerCase scheme = "bearer" ->
  avoids " " scheme = true /\ trimStart scheme = scheme /\ scheme <> "".
Proof.
  intros H. split; [|split].
  - apply toLowerCase_avoids_space. by rewrite H.
  - destruct scheme as [|a r]; [done|].
    assert (isWhiteSpace a = false) as Ha
      by (apply (toLowerCase_noWhiteSpace_head a r); by rewrite H).
    simpl. by rewrite Ha.
  - by intros ->.
Qed.

Lemma trimStart_app_head (a : ascii) (r t : string) :
  isWhiteSpace a = false -> trimStart (String a r +:+ t) = String a r +:+ t.
Proof. intros H. simpl. by rewrite H. Qed.

(** The Hono middleware reads the token of a well-formed header. *)
Lemma hono_extract_wellformed (auth tok : string) :
  isBearerHeader auth tok -> Hono.extractBearer auth = Some tok.
Proof.
  intros (scheme & Hs & -> & [Hne Hws]%andb_prop).
  destruct (scheme_shape scheme Hs) as (Hav & _ & _).
  unfold Hono.extractBearer, splitLimit.
  change (" " +:+ tok) with (String " " tok).
  rewrite (split_app_sep " " scheme tok Hav).
  rewrite (split_avoids " " tok (noWhiteSpace_avoids_space _ Hws)).
  simpl. rewrite Hs. rewrite bool_decide_eq_true_2 by done.
  by rewrite (trim_noWhiteSpace _ Hws).
Qed.

(** The Workers handler reads the token of a well-formed header. *)
Lemma workers_extract_wellformed (auth tok : string) :
  isBearerHeader auth tok -> Workers.extractBearer (Some auth) = Some tok.
Proof.
  intros (scheme & Hs & -> & [Hne Hws]%andb_prop).
  unfold Workers.extractBearer. simpl. unfold matchBearer.
  assert (trimStart (scheme +:+ " " +:+ tok) = scheme +:+ " " +:+ tok) as ->.
  { destruct scheme as [|a r]; [done|].
    apply trimStart_app_head, (toLowerCase_noWhiteSpace_head a r).
    by rewrite Hs. }
  rewrite (matchLiteralCI_lower "Bearer" scheme (" " +:+ tok)) by done.
  change (" " +:+ tok) with (String " " tok). simpl.
  destruct tok as [|b r]; [done|].
  simpl in Hws. apply andb_prop in Hws as [Hb Hr].
  apply negb_true_iff in Hb. simpl. rewrite Hb.
  unfold matchDotPlusEnd. simpl.
  assert (isLineTerminator b = false) as ->.
  { destruct (isLineTerminator b) eqn:E; [|done].
    apply lineTerminator_whiteSpace in E. congruence. }
  rewrite (noWhiteSpace_noLineTerminator _ Hr). simpl. f_equal.
  apply (trim_noWhiteSpace (String b r)). simpl. by rewrite Hb, Hr.
Qed.

End ExtractFacts.

(** ** The request gate *)

Module GateProps.
Import Config Credentials Gate ExtractFacts.

Section WithLibrary.
Context `{!SecurityLib}.

Lemma hono_validation_passed (cfg : UnifiedConfig) (req : Request)
  (uuid : string) (u : unit) :
  validateRequest cfg (req_headers req) = Returns u ->
  Hono.createMcpSecurityMiddleware cfg req uuid = Hono.authorize cfg req uuid.
Proof. unfold Hono.createMcpSecurityMiddleware. by intros ->. Qed.

Lemma hono_validation_failed (cfg : UnifiedConfig) (req : Request)
  (uuid msg : string) :
  validateRequest cfg (req_headers req) = Throws msg ->
  Hono.createMcpSecurityMiddleware cfg req uuid
  = Hono.Reply (Hono.internalError msg).
Proof. unfold Hono.createMcpSecurityMiddleware. by intros ->. Qed.

Lemma workers_validation_failed (cfg : UnifiedConfig) (req : Request)
  (sid msg : string) :
  validateRequest cfg (req_headers req) = Throws msg ->
  Workers.checkAuthAndChallenge req cfg sid
  = Some (Workers.buildChallengeResponse (url_origin req) sid (Some msg)).
Proof. unfold Workers.checkAuthAndChallenge. by intros ->. Qed.

Lemma auth_required (cfg : UnifiedConfig) :
  AUTH_STRATEGY cfg = bearer -> AUTH_ENABLED cfg = true ->
  noAuthRequired cfg = false.
Proof. unfold noAuthRequired. by intros -> ->. Qed.

Lemma bearerHeader_truthy (auth tok : string) :
  isBearerHeader auth tok -> Js.truthy auth = true /\ Js.truthy tok = true.
Proof.
  intros (scheme & Hs & -> & [Hne _]%andb_prop). split; [|done].
  by destruct scheme.
Qed.

(** The middleware on a well-formed header, once validation has passed. *)
Lemma hono_authorize_wellformed (cfg : UnifiedConfig) (req : Request)
  (uuid secret auth tok : string) :
  AUTH_STRATEGY cfg = bearer -> AUTH_ENABLED cfg = true ->
  BEARER_TOKEN cfg = Some secret -> secret <> "" ->
  headerGet (req_headers req) "Authorization" = Some auth ->
  isBearerHeader auth tok ->
  Hono.authorize cfg req uuid =
    if bool_decide (tok = secret)
    then Hono.Next (Some {| strategy := bearer;
                            authHeaders := [("authorization", auth)];
                            resolvedHeaders := [("authorization", auth)] |})
    else Hono.Reply
           (Hono.challengeResponse (url_origin req)
              (default uuid (headerGet (req_headers req) "Mcp-Session-Id"))
              (Some "Invalid token")).
Proof.
  intros Hst Hen Hsec Hne Hauth Hwf.
  destruct (bearerHeader_truthy _ _ Hwf) as [Ha Ht].
  unfold Hono.authorize.
  rewrite (auth_required _ Hst Hen), Hauth, Hst, Hsec. simpl.
  rewrite Ha, (hono_extract_wellformed _ _ Hwf). simpl. rewrite Ht. simpl.
  destruct secret; [done|]. simpl.
  repeat case_bool_decide; congruence.
Qed.

(** The handler on a well-formed header, once validation has passed. *)
Lemma workers_check_wellformed (cfg : UnifiedConfig) (req : Request)
  (sid secret auth tok : string) (u : unit) :
  AUTH_STRATEGY cfg = bearer -> AUTH_ENABLED cfg = true ->
  BEARER_TOKEN cfg = Some secret -> secret <> "" ->
  validateRequest cfg (req_headers req) = Returns u ->
  headerGet (req_headers req) "Authorization" = Some auth ->
  isBearerHeader auth tok ->
  Workers.checkAuthAndChallenge req cfg sid =
    if bool_decide (tok = secret) then None
    else Some (Workers.buildChallengeResponse (url_origin req) sid
                 (Some "Invalid token")).
Proof.
  intros Hst Hen Hsec Hne Hval Hauth Hwf.
  destruct (bearerHeader_truthy _ _ Hwf) as [Ha Ht].
  unfold Workers.checkAuthAndChallenge.
  rewrite Hval, (auth_required _ Hst Hen), Hauth, Hst, Hsec.
  rewrite (workers_extract_wellformed _ _ Hwf). simpl. rewrite Ht. simpl.
  destruct secret; [done|]. simpl.
  repeat case_bool_decide; congruence.
Qed.

(** On a well-formed header the two adapters decide alike, and a refusal
    is the same challenge built by the same call. *)
Lemma adapters_agree_wellformed (cfg : UnifiedConfig) (req : Request)
  (sid uuid secret auth tok : string) (u : unit) :
  AUTH_STRATEGY cfg = bearer -> AUTH_ENABLED cfg = true ->
  BEARER_TOKEN cfg = Some secret -> secret <> "" ->
  validateRequest cfg (req_headers req) = Returns u ->
  headerGet (req_headers req) "Authorization" = Some auth ->
  isBearerHeader auth tok ->
  sid = default uuid (headerGet (req_headers req) "Mcp-Session-Id") ->
  ((exists ctx, Hono.createMcpSecurityMiddleware cfg req uuid
                = Hono.Next (Some ctx))
   /\ Workers.checkAuthAndChallenge req cfg sid = None)
  \/ (exists message,
        Hono.createMcpSecurityMiddleware cfg req uuid
        = Hono.Reply (Hono.challengeResponse (url_origin req) sid message)
        /\ Workers.checkAuthAndChallenge req cfg sid
           = Some (Workers.buildChallengeResponse (url_origin req) sid
                     message)).
Proof.
  intros Hst Hen Hsec Hne Hval Hauth Hwf ->.
  rewrite (hono_validation_passed _ _ _ _ Hval).
  rewrite (hono_authorize_wellformed _ _ uuid _ _ _ Hst Hen Hsec Hne Hauth Hwf).
  rewrite (workers_check_wellformed _ _ _ _ _ _ _ Hst Hen Hsec Hne Hval
             Hauth Hwf).
  case_bool_decide.
  - left. split; [by eexists | done].
  - right. by eexists.
Qed.

End WithLibrary.
End GateProps.

(** ** Main results: the request gate *)

Section GateResults.
Import Config Credentials Gate ExtractFacts GateProps.
Context `{!SecurityLib}.

Lemma validationFails_throws (cfg : UnifiedConfig) (req : Request)
  (msg : string) :
  validationFails cfg req msg ->
  validateRequest cfg (req_headers req) = Throws msg.
Proof.
  unfold validationFails, validateRequest.
  intros [Ho | [Ho Hp]]; by rewrite Ho.
Qed.

(** C1, as the code has it. A request that fails the origin check or the
    protocol-version check is answered by the Hono middleware from its
    catch block: status 500, JSON-RPC code -32603, the message of the
    thrown error. The Workers handler answers the same request with the
    401 challenge. *)
Theorem validation_failure_hono_500_workers_401 (cfg : UnifiedConfig)
  (req : Request) (uuid sid msg : string) :
  validationFails cfg req msg ->
  Hono.createMcpSecurityMiddleware cfg req uuid
    = Hono.Reply {| status := 500;
                    resp_headers := [("Content-Type", "application/json")];
                    body := {| error_code := -32603;
                               error_message :=
                                 if Js.truthy msg then msg
                                 else "Internal server error" |} |}
  /\ exists r,
       Workers.checkAuthAndChallenge req cfg sid = Some (withCors r)
       /\ status r = 401.
Proof.
  intros Hfail%validationFails_throws. split.
  - by rewrite (hono_validation_failed _ _ _ _ Hfail).
  - rewrite (workers_validation_failed _ _ _ _ Hfail).
    unfold Workers.buildChallengeResponse. by eexists.
Qed.

(** C3. With strategy bearer, authentication enabled and a non-empty
    secret, a request that passes the origin and protocol-version checks
    and carries a well-formed [Authorization: Bearer <token>] header is
    admitted by either adapter exactly when the token is the secret; when
    it is not, either adapter answers with status 401 and the message
    [Invalid token]. *)
Theorem bearer_gate_admits_iff_token_matches (cfg : UnifiedConfig)
  (req : Request) (sid uuid secret auth tok : string) :
  AUTH_STRATEGY cfg = bearer -> AUTH_ENABLED cfg = true ->
  BEARER_TOKEN cfg = Some secret -> secret <> "" ->
  validateRequest cfg (req_headers req) = Returns tt ->
  headerGet (req_headers req) "Authorization" = Some auth ->
  isBearerHeader auth tok ->
  ((exists ctx, Hono.createMcpSecurityMiddleware cfg req uuid = Hono.Next ctx)
     <-> tok = secret)
  /\ (Workers.checkAuthAndChallenge req cfg sid = None <-> tok = secret)
  /\ (tok <> secret ->
        (exists r, Hono.createMcpSecurityMiddleware cfg req uuid = Hono.Reply r
                   /\ status r = 401
                   /\ error_message (body r) = "Invalid token")
        /\ (exists r, Workers.checkAuthAndChallenge req cfg sid
                        = Some (withCors r)
                      /\ status r = 401
                      /\ error_message (body r) = "Invalid token")).
Proof.
  intros Hst Hen Hsec Hne Hval Hauth Hwf.
  rewrite (hono_validation_passed _ _ _ _ Hval).
  rewrite (hono_authorize_wellformed _ _ uuid _ _ _ Hst Hen Hsec Hne Hauth Hwf).
  rewrite (workers_check_wellformed _ _ sid _ _ _ _ Hst Hen Hsec Hne Hval
             Hauth Hwf).
  case_bool_decide as Heq.
  - split; [|split]; [split; [done | by eexists] | done | done].
  - split; [|split].
    + split; [by intros [ctx [=]] | done].
    + by split.
    + intros _. split; [by eexists|].
      unfold Workers.buildChallengeResponse. by eexists.
Qed.

(** C4. With strategy bearer and authentication enabled, a request that
    passes the origin and protocol-version checks and has no
    [Authorization] header is answered with status 401, a
    [WWW-Authenticate] header and a [Mcp-Session-Id] header. In the Hono
    middleware that header is the request's own [Mcp-Session-Id] when it
    has one, and the value of [randomUUID()] otherwise; in the Workers
    handler it is the session id its caller hands in. *)
Theorem missing_authorization_is_challenged (cfg : UnifiedConfig)
  (req : Request) (sid uuid : string) :
  AUTH_STRATEGY cfg = bearer -> AUTH_ENABLED cfg = true ->
  validateRequest cfg (req_headers req) = Returns tt ->
  headerGet (req_headers req) "Authorization" = None ->
  (exists r, Hono.createMcpSecurityMiddleware cfg req uuid = Hono.Reply r
             /\ status r = 401
             /\ is_Some (respHeader r "WWW-Authenticate")
             /\ (forall s, headerGet (req_headers req) "Mcp-Session-Id" = Some s ->
                           respHeader r "Mcp-Session-Id" = Some s)
             /\ (headerGet (req_headers req) "Mcp-Session-Id" = None ->
                 respHeader r "Mcp-Session-Id" = Some uuid))
  /\ (exists r, Workers.checkAuthAndChallenge req cfg sid = Some (withCors r)
                /\ status r = 401
                /\ is_Some (respHeader r "WWW-Authenticate")
                /\ respHeader r "Mcp-Session-Id" = Some sid).
Proof.
  intros Hst Hen Hval Hauth. split.
  - rewrite (hono_validation_passed _ _ _ _ Hval). unfold Hono.authorize.
    rewrite (auth_required _ Hst Hen), Hauth. simpl.
    eexists. split; [done|]. repeat split.
    + by eexists.
    + by intros s ->.
    + by intros ->.
  - unfold Workers.checkAuthAndChallenge.
    rewrite Hval, (auth_required _ Hst Hen), Hauth. simpl.
    unfold Workers.buildChallengeResponse.
    eexists. split; [done|]. repeat split. by eexists.
Qed.

(** C5, amended. With strategy none, a request that passes the origin and
    protocol-version checks is admitted by either adapter whatever its
    [Authorization] header: the bearer checks are skipped. A request that
    fails one of the two checks is not admitted by either adapter: they
    run before the strategy is looked at. *)
Theorem strategy_none_skips_bearer_checks_only (cfg : UnifiedConfig)
  (req : Request) (sid uuid : string) :
  AUTH_STRATEGY cfg = none ->
  (validateRequest cfg (req_headers req) = Returns tt ->
     Hono.createMcpSecurityMiddleware cfg req uuid = Hono.Next None
     /\ Workers.checkAuthAndChallenge req cfg sid = None)
  /\ (forall msg, validationFails cfg req msg ->
        (forall ctx, Hono.createMcpSecurityMiddleware cfg req uuid
                     <> Hono.Next ctx)
        /\ Workers.checkAuthAndChallenge req cfg sid <> None).
Proof.
  intros Hst.
  assert (noAuthRequired cfg = true) as Hno.
  { unfold noAuthRequired. rewrite Hst. apply orb_true_r. }
  split.
  - intros Hval. split.
    + rewrite (hono_validation_passed _ _ _ _ Hval). unfold Hono.authorize.
      by rewrite Hno.
    + unfold Workers.checkAuthAndChallenge. by rewrite Hval, Hno.
  - intros msg Hfail%validationFails_throws. split.
    + intros ctx. by rewrite (hono_validation_failed _ _ _ _ Hfail).
    + by rewrite (workers_validation_failed _ _ _ _ Hfail).
Qed.

(** C2, as the code has it. The two adapters do not read every
    [Authorization] value alike. The Hono middleware splits the value at
    single spaces and keeps the second piece; the Workers handler keeps
    all that follows the white space after the scheme. With the secret
    [abc123] and validation passed: the value [Bearer abc123 extra] is
    admitted by the Hono middleware and refused as an invalid token by the
    Workers handler; the value [Bearer  abc123], with two spaces, is
    refused by the Hono middleware (bearer token required) and admitted by
    the Workers handler. *)
Theorem adapters_disagree_on_bearer_extraction (cfg : UnifiedConfig)
  (req : Request) (sid uuid : string) :
  AUTH_STRATEGY cfg = bearer -> AUTH_ENABLED cfg = true ->
  BEARER_TOKEN cfg = Some "abc123" ->
  validateRequest cfg (req_headers req) = Returns tt ->
  (headerGet (req_headers req) "Authorization" = Some "Bearer abc123 extra" ->
     Hono.extractBearer "Bearer abc123 extra" = Some "abc123"
     /\ Workers.extractBearer (Some "Bearer abc123 extra")
        = Some "abc123 extra"
     /\ (exists ctx, Hono.createMcpSecurityMiddleware cfg req uuid
                     = Hono.Next (Some ctx))
     /\ (exists r, Workers.checkAuthAndChallenge req cfg sid
                     = Some (withCors r)
                   /\ status r = 401
                   /\ error_message (body r) = "Invalid token"))
  /\ (headerGet (req_headers req) "Authorization" = Some "Bearer  abc123" ->
        Hono.extractBearer "Bearer  abc123" = Some ""
        /\ Workers.extractBearer (Some "Bearer  abc123") = Some "abc123"
        /\ (exists r, Hono.createMcpSecurityMiddleware cfg req uuid
                      = Hono.Reply r
                      /\ status r = 401
                      /\ error_message (body r) = "Bearer token required")
        /\ Workers.checkAuthAndChallenge req cfg sid = None).
Proof.
  intros Hst Hen Hsec Hval.
  rewrite (hono_validation_passed _ _ _ _ Hval).
  unfold Hono.authorize, Workers.checkAuthAndChallenge.
  rewrite Hval, (auth_required _ Hst Hen), Hst, Hsec.
  split; intros ->.
  - split; [done|]. split; [done|]. split; [by eexists|].
    unfold Workers.buildChallengeResponse. by eexists.
  - split; [done|]. split; [done|]. split; [by eexists | done].
Qed.

End GateResults.

(** *** The gate on the sample inputs *)

Section GateSamples.
Import Config Credentials Gate SpecModel Samples.

(** The validation failure of C1 on a request from a foreign origin in
    production mode. *)
Lemma validation_failure_sample :
  let cfg := parseConfig bearerEnv in
  let req := request [foreignOrigin; authorization "Bearer abc123"] in
  validationFails cfg req "OriginRejected"
  /\ Hono.createMcpSecurityMiddleware cfg req "uuid"
     = Hono.Reply {| status := 500;
                     resp_headers := [("Content-Type", "application/json")];
                     body := {| error_code := -32603;
                                error_message := "OriginRejected" |} |}
  /\ exists r,
       Workers.checkAuthAndChallenge req cfg "sid" = Some (withCors r)
       /\ status r = 401.
Proof.
  intros cfg req.
  assert (validationFails cfg req "OriginRejected") as Hfail
    by (left; vm_compute; reflexivity).
  split; [exact Hfail|].
  exact (validation_failure_hono_500_workers_401 cfg req "uuid" "sid"
           "OriginRejected" Hfail).
Defined.

(** C3 on the spec's scenario: the secret is admitted, [wrong] is not. *)
Lemma bearer_gate_sample :
  let cfg := parseConfig bearerEnv in
  let req := request [localOrigin; authorization "Bearer wrong"] in
  (exists r, Hono.createMcpSecurityMiddleware cfg req "uuid" = Hono.Reply r
             /\ status r = 401
             /\ error_message (body r) = "Invalid token")
  /\ (exists r, Workers.checkAuthAndChallenge req cfg "sid"
                  = Some (withCors r)
                /\ status r = 401
                /\ error_message (body r) = "Invalid token").
Proof.
  intros cfg req.
  apply (bearer_gate_admits_iff_token_matches cfg req "sid" "uuid" "abc123"
           "Bearer wrong" "wrong").
  - reflexivity.
  - reflexivity.
  - reflexivity.
  - discriminate.
  - vm_compute; reflexivity.
  - vm_compute; reflexivity.
  - exists "Bearer". repeat split; reflexivity.
  - discriminate.
Defined.

(** C4 on a request that names its session. *)
Lemma missing_authorization_sample :
  let cfg := parseConfig bearerEnv in
  let req := request [localOrigin; sessionId "s-1"] in
  (exists r, Hono.createMcpSecurityMiddleware cfg req "uuid" = Hono.Reply r
             /\ status r = 401
             /\ is_Some (respHeader r "WWW-Authenticate")
             /\ respHeader r "Mcp-Session-Id" = Some "s-1")
  /\ (exists r, Workers.checkAuthAndChallenge req cfg "s-1"
                  = Some (withCors r)
                /\ status r = 401
                /\ is_Some (respHeader r "WWW-Authenticate")
                /\ respHeader r "Mcp-Session-Id" = Some "s-1").
Proof.
  intros cfg req.
  destruct (missing_authorization_is_challenged cfg req "s-1" "uuid")
    as [(r & Hr & Hs & Hw & Hsid & _) Hworkers].
  - reflexivity.
  - reflexivity.
  - vm_compute; reflexivity.
  - vm_compute; reflexivity.
  - split; [|exact Hworkers].
    exists r. repeat split; try assumption.
    apply Hsid. vm_compute; reflexivity.
Defined.

(** C5 as stated fails: with strategy none, a request without
    [Authorization] whose [Origin] is not an allowed one is not admitted,
    by either adapter. *)
Lemma strategy_none_foreign_origin_not_admitted :
  let cfg := parseConfig openEnv in
  let req := request [foreignOrigin] in
  AUTH_STRATEGY cfg = none
  /\ headerGet (req_headers req) "Authorization" = None
  /\ Gate.validateOrigin (req_headers req) false = Throws "OriginRejected"
  /\ (forall ctx, Hono.createMcpSecurityMiddleware cfg req "uuid"
                  <> Hono.Next ctx)
  /\ Workers.checkAuthAndChallenge req cfg "sid" <> None.
Proof.
  intros cfg req. repeat split; try (vm_compute; reflexivity).
  - intros ctx. vm_compute. discriminate.
  - vm_compute. discriminate.
Qed.

(** C5, amended, on a local request with a meaningless [Authorization]. *)
Lemma strategy_none_sample :
  let cfg := parseConfig openEnv in
  let req := request [localOrigin; authorization "Basic Zm9v"] in
  Hono.createMcpSecurityMiddleware cfg req "uuid" = Hono.Next None
  /\ Workers.checkAuthAndChallenge req cfg "sid" = None.
Proof.
  intros cfg req.
  apply (strategy_none_skips_bearer_checks_only cfg req "sid" "uuid").
  - reflexivity.
  - vm_compute; reflexivity.
Defined.

(** C2 on the sample configuration. *)
Lemma adapters_disagree_sample :
  let cfg := parseConfig bearerEnv in
  let req := request [localOrigin; authorization "Bearer abc123 extra"] in
  (exists ctx, Hono.createMcpSecurityMiddleware cfg req "uuid"
               = Hono.Next (Some ctx))
  /\ (exists r, Workers.checkAuthAndChallenge req cfg "sid"
                  = Some (withCors r)
                /\ status r = 401
                /\ error_message (body r) = "Invalid token").
Proof.
  intros cfg req.
  destruct (adapters_disagree_on_bearer_extraction cfg req "sid" "uuid")
    as [Hextra _].
  - reflexivity.
  - reflexivity.
  - reflexivity.
  - vm_compute; reflexivity.
  - destruct Hextra as (_ & _ & Hh & Hw); [vm_compute; reflexivity|].
    exact (conj Hh Hw).
Defined.

End GateSamples.

(** ** The in-memory session store *)

Module MemoryFacts.
Import Storage.

Lemma setSessions_same (st : MemorySessionStore) :
  setSessions st (sessions st) = st.
Proof. by destruct st. Qed.

Lemma ensure_present (st : MemorySessionStore) (id : string) (now : Z)
  (e : SessionEntry) :
  sessions st !! id = Some e -> Memory.ensure st id now = st.
Proof. unfold Memory.ensure. by intros ->. Qed.

Lemma ensure_absent (st : MemorySessionStore) (id : string) (now : Z) :
  sessions st !! id = None ->
  Memory.ensure st id now = Memory.put st id {| created_at := now |} now.
Proof. unfold Memory.ensure, Memory.put. by intros ->. Qed.

Lemma put_lookup (st : MemorySessionStore) (id : string) (r : SessionRecord)
  (now : Z) :
  sessions (Memory.put st id r now) !! id
  = Some {| record := r; expiresAt := now + ttlMs st |}.
Proof. unfold Memory.put. simpl. apply lookup_insert_eq. Qed.

Lemma put_lookup_ne (st : MemorySessionStore) (id id' : string)
  (r : SessionRecord) (now : Z) :
  id <> id' ->
  sessions (Memory.put st id r now) !! id' = sessions st !! id'.
Proof. intros Hne. unfold Memory.put. simpl. by apply lookup_insert_ne. Qed.

Lemma put_ttl (st : MemorySessionStore) (id : string) (r : SessionRecord)
  (now : Z) :
  ttlMs (Memory.put st id r now) = ttlMs st.
Proof. reflexivity. Qed.

(** After [ensure] the id is in the map, whatever was there before. *)
Lemma ensure_lookup (st : MemorySessionStore) (id : string) (now : Z) :
  is_Some (sessions (Memory.ensure st id now) !! id).
Proof.
  destruct (sessions st !! id) as [e|] eqn:E.
  - rewrite (ensure_present _ _ _ _ E), E. by eexists.
  - rewrite (ensure_absent _ _ _ E), put_lookup. by eexists.
Qed.

Lemma ensure_ensure (st : MemorySessionStore) (id : string) (t1 t2 : Z) :
  Memory.ensure (Memory.ensure st id t1) id t2 = Memory.ensure st id t1.
Proof.
  destruct (ensure_lookup st id t1) as [e He].
  by apply (ensure_present _ _ _ e).
Qed.

(** [get] on an entry that is still alive, and on one that is not. *)
Lemma get_live (st : MemorySessionStore) (id : string) (now : Z)
  (e : SessionEntry) :
  sessions st !! id = Some e -> now <= expiresAt e ->
  Memory.get st id now = (st, Some (record e)).
Proof.
  intros He Hle. unfold Memory.get. rewrite He.
  destruct (Z.gtb_spec now (expiresAt e)); [lia | done].
Qed.

Lemma get_expired (st : MemorySessionStore) (id : string) (now : Z)
  (e : SessionEntry) :
  sessions st !! id = Some e -> expiresAt e < now ->
  Memory.get st id now = (Memory.delete st id, None).
Proof.
  intros He Hlt. unfold Memory.get. rewrite He.
  destruct (Z.gtb_spec now (expiresAt e)); [done | lia].
Qed.

Lemma get_missing (st : MemorySessionStore) (id : string) (now : Z) :
  sessions st !! id = None -> Memory.get st id now = (st, None).
Proof. unfold Memory.get. by intros ->. Qed.

(** A record is read back until its time to live has passed. *)
Lemma get_put (st : MemorySessionStore) (id : string) (r : SessionRecord)
  (t1 t2 : Z) :
  Memory.get (Memory.put st id r t1) id t2
  = if t2 >? t1 + ttlMs st
    then (Memory.delete (Memory.put st id r t1) id, None)
    else (Memory.put st id r t1, Some r).
Proof.
  destruct (Z.gtb_spec t2 (t1 + ttlMs st)).
  - by apply (get_expired _ _ _ _ (put_lookup st id r t1)).
  - by apply (get_live _ _ _ _ (put_lookup st id r t1)).
Qed.

(** The sweep keeps the entries that are still alive, and only those. *)
Lemma cleanup_lookup (st : MemorySessionStore) (id : string) (now : Z)
  (e : SessionEntry) :
  sessions (Memory.cleanup st now) !! id = Some e
  <-> sessions st !! id = Some e /\ now <= expiresAt e.
Proof.
  unfold Memory.cleanup. simpl. rewrite map_lookup_filter_Some. simpl.
  rewrite negb_true_iff, Z.gtb_ltb, Z.ltb_ge. done.
Qed.

End MemoryFacts.

(** ** Main results: the in-memory store *)

Section MemoryResults.
Import Storage MemoryFacts.

(** C8. In a store whose time to live is 1000 ms, a record written by
    [put] at time 0 is returned by [get] at time 999 and is absent at time
    1001. *)
Theorem volatile_ttl_1000 (m : gmap string SessionEntry) (id : string)
  (r : SessionRecord) :
  let st := Memory.put {| sessions := m; ttlMs := 1000 |} id r 0 in
  snd (Memory.get st id 999) = Some r
  /\ snd (Memory.get st id 1001) = None.
Proof. intros st. unfold st. by rewrite !get_put. Qed.

(** C10. When the map holds an entry for the id, [ensure] leaves the store
    as it is, whether the entry has expired or not. So [ensure] on an
    expired entry that no sweep has removed does not refresh it: a [get]
    that follows still finds nothing. *)
Theorem ensure_tests_membership_not_expiry (st : MemorySessionStore)
  (id : string) (e : SessionEntry) (now : Z) :
  sessions st !! id = Some e ->
  Memory.ensure st id now = st
  /\ (expiresAt e < now ->
      forall now', now <= now' ->
        snd (Memory.get (Memory.ensure st id now) id now') = None).
Proof.
  intros He. rewrite (ensure_present _ _ _ _ He). split; [done|].
  intros Hexp now' Hle.
  rewrite (get_expired _ _ now' _ He); [done | lia].
Qed.

(** C10 on an entry written at time 0 with a time to live of 1000 ms,
    at time 5000. *)
Lemma ensure_on_expired_entry_sample :
  let st := Memory.put (newMemorySessionStore 1000) "s-1"
              {| created_at := 0 |} 0 in
  Memory.ensure st "s-1" 5000 = st
  /\ snd (Memory.get (Memory.ensure st "s-1" 5000) "s-1" 5000) = None.
Proof.
  intros st.
  destruct (ensure_tests_membership_not_expiry st "s-1"
              {| record := {| created_at := 0 |}; expiresAt := 1000 |} 5000)
    as [Hsame Hget].
  - vm_compute; reflexivity.
  - split; [exact Hsame|]. apply Hget; [reflexivity | lia].
Defined.

End MemoryResults.


(** ** The store on the key-value service *)

Module KvFacts.
Import Storage MemoryFacts.

Section WithService.
Context {K : Type} `{!KVNamespace K} `{!KvCodec}.

(** [put] always reaches the fallback, if there is one. *)
Lemma put_fallback (st : KvSessionStore K) (id : string) (r : SessionRecord)
  (now : Z) :
  fallback (Kv.put st id r now)
  = (fun m => Memory.put m id r now) <$> fallback st.
Proof.
  unfold Kv.put. destruct (encrypt (JSON_stringify r)); [|done].
  by destruct (kv_put (kv st) (Kv.key id) a SESSION_TTL_SECONDS).
Qed.

(** When the service throws on [get], the store reads its fallback. *)
Lemma get_service_throws (st : KvSessionStore K) (id : string) (now : Z)
  (msg : string) :
  kv_get (kv st) (Kv.key id) = Throws msg ->
  Kv.get st id now = Kv.fallbackGet st id now.
Proof. unfold Kv.get, Kv.readDurable. by intros ->. Qed.

End WithService.
End KvFacts.

(** ** Main results: [ensure], and the store in degraded mode *)

Section StoreResults.
Import Storage MemoryFacts KvFacts.

(** C6, as the code has it. In the in-memory store [ensure] tests the
    map: an id that is in it keeps its entry, an id that is not gets an
    entry created at [now], and [ensure] twice leaves the store as [ensure]
    once, for every state and every two times. In the store on the
    key-value service [ensure] looks with [get], which answers a failed
    read like a missing record: on a service whose [get] throws, in a
    store without fallback, every [ensure] is the [put] of a new record,
    so the second [ensure] writes a record created at the second time
    under the key where the first one wrote its own. *)
Theorem ensure_on_service_overwrites_when_its_read_fails (K : Type)
  (service : KVNamespace K) (codec : KvCodec) (st : KvSessionStore K)
  (id : string) (tGet tNow tPut tGet' tNow' tPut' : Z) :
  fallback st = None ->
  (forall k, exists msg, kv_get k (Kv.key id) = Throws msg) ->
  let st1 := Kv.ensure st id tGet tNow tPut in
  let st2 := Kv.ensure st1 id tGet' tNow' tPut' in
  (st1 = Kv.put st id {| created_at := tNow |} tPut
   /\ forall text,
        encrypt (JSON_stringify {| created_at := tNow |}) = Returns text ->
        kv st1 = fst (kv_put (kv st) (Kv.key id) text SESSION_TTL_SECONDS))
  /\ (st2 = Kv.put st1 id {| created_at := tNow' |} tPut'
      /\ forall text,
           encrypt (JSON_stringify {| created_at := tNow' |}) = Returns text ->
           kv st2 = fst (kv_put (kv st1) (Kv.key id) text SESSION_TTL_SECONDS))
  /\ (forall (m : MemorySessionStore) (now now' : Z),
        (forall e, sessions m !! id = Some e -> Memory.ensure m id now = m)
        /\ (sessions m !! id = None ->
            sessions (Memory.ensure m id now) !! id
            = Some {| record := {| created_at := now |};
                      expiresAt := now + ttlMs m |})
        /\ Memory.ensure (Memory.ensure m id now) id now'
           = Memory.ensure m id now).
Proof.
  intros Hfb Hdown st1 st2.
  assert (forall (s : KvSessionStore K) (a b c : Z),
            fallback s = None ->
            Kv.ensure s id a b c = Kv.put s id {| created_at := b |} c
            /\ fallback (Kv.ensure s id a b c) = None) as Hensure.
  { intros s a b c Hs.
    destruct (Hdown (kv s)) as [msg Hmsg].
    assert (Kv.get s id a = (s, None)) as Hget.
    { rewrite (get_service_throws _ _ _ _ Hmsg). unfold Kv.fallbackGet.
      by rewrite Hs. }
    assert (Kv.ensure s id a b c = Kv.put s id {| created_at := b |} c)
      as Heq by (unfold Kv.ensure; by rewrite Hget).
    split; [exact Heq|]. by rewrite Heq, put_fallback, Hs. }
  assert (forall (s : KvSessionStore K) (r : SessionRecord) (c : Z) text,
            encrypt (JSON_stringify r) = Returns text ->
            kv (Kv.put s id r c)
            = fst (kv_put (kv s) (Kv.key id) text SESSION_TTL_SECONDS))
    as Hput.
  { intros s r c text Htext. unfold Kv.put. rewrite Htext.
    by destruct (kv_put (kv s) (Kv.key id) text SESSION_TTL_SECONDS). }
  destruct (Hensure st tGet tNow tPut Hfb) as [H1 Hfb1]. fold st1 in H1, Hfb1.
  destruct (Hensure st1 tGet' tNow' tPut' Hfb1) as [H2 _]. fold st2 in H2.
  split; [|split].
  - split; [exact H1|]. intros text Htext. rewrite H1. by apply Hput.
  - split; [exact H2|]. intros text Htext. rewrite H2. by apply Hput.
  - intros m now now'. split; [|split].
    + intros e. apply ensure_present.
    + intros Hnone. by rewrite (ensure_absent _ _ _ Hnone), put_lookup.
    + apply ensure_ensure.
Qed.

(** C7. On a service whose [get] always throws, whatever its [put] does
    and in particular when it throws too, a store with a fallback returns
    from [put] and from [get] (neither can throw), and a [get] that follows
    the [put] of a record within the fallback's time to live returns that
    record: the fallback holds it. *)
Theorem degraded_store_reads_back_its_write (K : Type)
  (service : KVNamespace K) (codec : KvCodec) (st : KvSessionStore K)
  (fb : MemorySessionStore) (id : string) (r : SessionRecord) (t1 t2 : Z) :
  (forall k key, exists msg, kv_get k key = Throws msg) ->
  fallback st = Some fb ->
  t2 <= t1 + ttlMs fb ->
  let st1 := Kv.put st id r t1 in
  fallback st1 = Some (Memory.put fb id r t1)
  /\ Kv.get st1 id t2 = (st1, Some r)
  /\ snd (Memory.get (Memory.put fb id r t1) id t2) = Some r.
Proof.
  intros Hdown Hfb Hle st1.
  assert (fallback st1 = Some (Memory.put fb id r t1)) as Hfb1
    by (unfold st1; by rewrite put_fallback, Hfb).
  assert (Memory.get (Memory.put fb id r t1) id t2
          = (Memory.put fb id r t1, Some r)) as Hget.
  { rewrite get_put. destruct (Z.gtb_spec t2 (t1 + ttlMs fb)); [lia | done]. }
  split; [done|]. split; [|by rewrite Hget].
  destruct (Hdown (kv st1) (Kv.key id)) as [msg Hmsg].
  rewrite (get_service_throws _ _ _ _ Hmsg). unfold Kv.fallbackGet.
  rewrite Hfb1, Hget. f_equal. destruct st1; simpl in *. by subst.
Qed.

End StoreResults.

(** *** The stores on the sample inputs *)

Section StoreSamplesResults.
Import Storage StoreSamples.

(** C6 on a fresh store on the service whose reads fail: [ensure] at 10
    stores a record created at 10, [ensure] at 20 replaces it with one
    created at 20. On a fresh in-memory store the record stays the one
    created at 10. *)
Lemma ensure_overwrites_sample :
  let st1 := Kv.ensure unreadableStore "s-1" 10 10 10 in
  let st2 := Kv.ensure st1 "s-1" 20 20 20 in
  let m1 := Memory.ensure (newMemorySessionStore 1000) "s-1" 10 in
  written (kv st1) !! Kv.key "s-1" = Some (recordText {| created_at := 10 |})
  /\ written (kv st2) !! Kv.key "s-1"
     = Some (recordText {| created_at := 20 |})
  /\ Memory.ensure m1 "s-1" 20 = m1
  /\ record <$> sessions m1 !! "s-1" = Some {| created_at := 10 |}.
Proof.
  intros st1 st2 m1.
  destruct (ensure_on_service_overwrites_when_its_read_fails Unreadable
              unreadableService plainCodec unreadableStore "s-1"
              10 10 10 20 20 20)
    as ([_ H1] & [_ H2] & Hmem).
  - reflexivity.
  - intros k. exists "read failed". reflexivity.
  - split; [|split; [|split]].
    + fold st1 in H1. rewrite (H1 _ eq_refl). vm_compute; reflexivity.
    + fold st1 st2 in H2. rewrite (H2 _ eq_refl). vm_compute; reflexivity.
    + destruct (Hmem (newMemorySessionStore 1000) 10 20) as (_ & _ & Htwice).
      exact Htwice.
    + vm_compute; reflexivity.
Defined.

(** C7 on the service that is down. *)
Lemma degraded_store_sample :
  let st1 := Kv.put degradedStore "s-1" {| created_at := 42 |} 100 in
  fallback st1
  = Some (Memory.put (newMemorySessionStore DEFAULT_TTL_MS) "s-1"
            {| created_at := 42 |} 100)
  /\ Kv.get st1 "s-1" 200 = (st1, Some {| created_at := 42 |})
  /\ snd (Memory.get
            (Memory.put (newMemorySessionStore DEFAULT_TTL_MS) "s-1"
               {| created_at := 42 |} 100) "s-1" 200)
     = Some {| created_at := 42 |}.
Proof.
  apply (degraded_store_reads_back_its_write unit downService plainCodec
           degradedStore (newMemorySessionStore DEFAULT_TTL_MS) "s-1"
           {| created_at := 42 |} 100 200).
  - intros k key. exists "service unavailable". reflexivity.
  - reflexivity.
  - vm_compute. discriminate.
Defined.

End StoreSamplesResults.

(** ** Configuration *)

Module ConfigFacts.
Import Config.

Lemma number_text_not_true (n : Z) :
  Js.toLowerCase (envToString (ENum n)) <> "true".
Proof.
  unfold envToString, NilZero.string_of_int.
  destruct (Z.to_int n) as [d|d]; [destruct d|]; simpl;
    intros Heq; injection Heq as Hc _; vm_compute in Hc; discriminate Hc.
Qed.

(** The values that [parseBoolean] reads as true: the boolean [true] and
    the strings that lower-case to [true]. *)
Lemma parseBoolean_true_iff (v : EnvValue) :
  parseBoolean v = true
  <-> v = EBool true \/ exists s, v = EStr s /\ Js.toLowerCase s = "true".
Proof.
  unfold parseBoolean, stringOr. rewrite bool_decide_eq_true.
  destruct v as [| |[]|s|n]; simpl.
  - split; [done | by intros [|(s & ? & _)]].
  - split; [done | by intros [|(s & ? & _)]].
  - split; [by left | done].
  - split; [done | by intros [|(s & ? & _)]].
  - destruct s as [|a s]; simpl.
    + split; [done | by intros [|(s & [= <-] & ?)]].
    + split; [intros Hs; right; by eexists | by intros [|(s' & [= <-] & ?)]].
  - destruct (n =? 0); simpl.
    + split; [done | by intros [|(s & ? & _)]].
    + split; [by intros ?%number_text_not_true | by intros [|(s & ? & _)]].
Qed.

Lemma explicitlyDisabled_true_iff (env : RawEnv) :
  explicitlyDisabled env = true
  <-> env_AUTH_ENABLED env = EStr "false" \/ env_AUTH_ENABLED env = EBool false.
Proof.
  unfold explicitlyDisabled. destruct (env_AUTH_ENABLED env) as [| |[]|s|n];
    try (split; [done | by intros [|]]).
  - split; [by right | done].
  - rewrite bool_decide_eq_true. split; [intros ->; by left|].
    by intros [[= ->]|].
Qed.

Lemma selectsNone_iff (env : RawEnv) :
  explicitStrategy env = Some "none"
  <-> exists s, env_AUTH_STRATEGY env = Some s /\ Js.toLowerCase s = "none".
Proof.
  unfold explicitStrategy. destruct (env_AUTH_STRATEGY env) as [s|]; simpl.
  - split; [intros [= Hs]; by exists s | by intros (s' & [= <-] & ->)].
  - split; [done | by intros (s & ? & _)].
Qed.

Lemma secretSet_iff (env : RawEnv) :
  Js.truthyOpt (env_BEARER_TOKEN env) = true
  <-> exists s, env_BEARER_TOKEN env = Some s /\ s <> "".
Proof.
  destruct (env_BEARER_TOKEN env) as [[|a s]|]; simpl.
  - split; [done | by intros (s & [= <-] & ?)].
  - split; [intros _; by eexists | done].
  - split; [done | by intros (s & ? & _)].
Qed.

End ConfigFacts.

(** ** Main results: the authentication strategy *)

Section ConfigResults.
Import Config ConfigFacts.

(** C9. The strategy resolved from the environment is [none] when the
    strategy selector lower-cases to [none] or the enable flag is the
    string [false] or the boolean [false]; otherwise it is [bearer] when a
    bearer secret is set (a non-empty string) or the enable flag parses to
    true (the boolean [true], or a string that lower-cases to [true]);
    otherwise it is [none]. [parseConfig] stores that strategy, and sets
    [AUTH_ENABLED] exactly when it is [bearer]. *)
Theorem auth_strategy_resolution (env : RawEnv) :
  let selectsNone :=
    exists s, env_AUTH_STRATEGY env = Some s /\ Js.toLowerCase s = "none" in
  let disabled :=
    env_AUTH_ENABLED env = EStr "false" \/ env_AUTH_ENABLED env = EBool false in
  let secretSet := exists s, env_BEARER_TOKEN env = Some s /\ s <> "" in
  let enabled :=
    env_AUTH_ENABLED env = EBool true
    \/ exists s, env_AUTH_ENABLED env = EStr s /\ Js.toLowerCase s = "true" in
  (selectsNone \/ disabled -> parseAuthStrategy env = none)
  /\ (~ (selectsNone \/ disabled) -> secretSet \/ enabled ->
      parseAuthStrategy env = bearer)
  /\ (~ (selectsNone \/ disabled) -> ~ (secretSet \/ enabled) ->
      parseAuthStrategy env = none)
  /\ AUTH_STRATEGY (parseConfig env) = parseAuthStrategy env
  /\ (AUTH_ENABLED (parseConfig env) = true
      <-> AUTH_STRATEGY (parseConfig env) = bearer).
Proof.
  intros selectsNone disabled secretSet enabled.
  assert (bool_decide (explicitStrategy env = Some "none")
          || explicitlyDisabled env = true <-> selectsNone \/ disabled) as Hnone.
  { rewrite orb_true_iff, bool_decide_eq_true.
    by rewrite selectsNone_iff, explicitlyDisabled_true_iff. }
  assert (Js.truthyOpt (env_BEARER_TOKEN env)
          || parseBoolean (env_AUTH_ENABLED env) = true
          <-> secretSet \/ enabled) as Hbearer.
  { rewrite orb_true_iff. by rewrite secretSet_iff, parseBoolean_true_iff. }
  assert (AUTH_ENABLED (parseConfig env) = true
          <-> AUTH_STRATEGY (parseConfig env) = bearer) as Hen
    by (simpl; apply bool_decide_eq_true).
  change (AUTH_STRATEGY (parseConfig env)) with (parseAuthStrategy env) in *.
  unfold parseAuthStrategy in *.
  destruct (bool_decide (explicitStrategy env = Some "none")
            || explicitlyDisabled env);
    destruct (Js.truthyOpt (env_BEARER_TOKEN env)
              || parseBoolean (env_AUTH_ENABLED env));
    repeat split; try done; try apply Hen; try tauto.
  intros Hn%Hnone. discriminate Hn.
Qed.

(** C9 on the sample environments: a secret and no selector resolve to
    [bearer]; the selector [none] resolves to [none]. *)
Lemma auth_strategy_sample :
  parseAuthStrategy Samples.bearerEnv = bearer
  /\ parseAuthStrategy Samples.openEnv = none.
Proof.
  split.
  - destruct (auth_strategy_resolution Samples.bearerEnv)
      as (_ & Hbearer & _).
    apply Hbearer.
    + intros [(s & Hs & _) | [Hd | Hd]]; discriminate.
    + left. exists "abc123". split; [reflexivity | discriminate].
  - destruct (auth_strategy_resolution Samples.openEnv) as (Hnone & _).
    apply Hnone. left. exists "none". split; reflexivity.
Defined.

End ConfigResults.

(** * Further properties *)

(** ** More facts about the string primitives *)

Module JsMoreFacts.
Import Js JsMore Credentials JsFacts.

Lemma trimEnd_head (a : ascii) (r : string) :
  isWhiteSpace a = false -> trimEnd (String a r) = String a (trimEnd r).
Proof. intros Ha. simpl. rewrite Ha. by destruct (trimEnd r). Qed.

Lemma trimEnd_idem (s : string) : trimEnd (trimEnd s) = trimEnd s.
Proof.
  induction s as [|a r IH]; [done|]. simpl.
  destruct (trimEnd r) as [|b r'] eqn:E.
  - destruct (isWhiteSpace a) eqn:Ha; [done|]. simpl. by rewrite Ha.
  - change (trimEnd (String a (String b r'))) with
      (match trimEnd (String b r') with
       | EmptyString => if isWhiteSpace a then EmptyString
                        else String a EmptyString
       | r'' => String a r''
       end).
    by rewrite IH.
Qed.

Lemma trimStart_head (s : string) :
  trimStart s = "" \/ exists a r, trimStart s = String a r
                                  /\ isWhiteSpace a = false.
Proof.
  induction s as [|a r IH]; simpl; [by left|].
  destruct (isWhiteSpace a) eqn:Ha; [done|]. right. by exists a, r.
Qed.

(** [trim] removes all there is to remove. *)
Lemma trim_idem (s : string) : trim (trim s) = trim s.
Proof.
  unfold trim. destruct (trimStart_head s) as [-> | (a & r & -> & Ha)];
    [done|].
  rewrite (trimEnd_head a r Ha).
  assert (trimStart (String a (trimEnd r)) = String a (trimEnd r)) as ->
    by (simpl; by rewrite Ha).
  rewrite (trimEnd_head a _ Ha). by rewrite trimEnd_idem.
Qed.

Lemma trimStart_allWhiteSpace_app (ws s : string) :
  allWhiteSpace ws = true -> trimStart (ws +:+ s) = trimStart s.
Proof.
  induction ws as [|a ws IH]; [done|]. simpl.
  intros [-> Hws]%andb_prop. by apply IH.
Qed.

Lemma trim_allWhiteSpace_app (ws s : string) :
  allWhiteSpace ws = true -> trim (ws +:+ s) = trim s.
Proof. intros H. unfold trim. by rewrite trimStart_allWhiteSpace_app. Qed.

Lemma trimStart_avoids (c : ascii) (s : string) :
  avoids c s = true -> avoids c (trimStart s) = true.
Proof.
  induction s as [|a r IH]; [done|]. simpl.
  intros Hs. destruct (isWhiteSpace a); [|done].
  apply andb_prop in Hs as [_ Hr]. by apply IH.
Qed.

Lemma trimEnd_avoids (c : ascii) (s : string) :
  avoids c s = true -> avoids c (trimEnd s) = true.
Proof.
  induction s as [|a r IH]; [done|]. simpl.
  intros [Ha Hr]%andb_prop. specialize (IH Hr).
  destruct (trimEnd r) as [|b r'].
  - destruct (isWhiteSpace a); [done|]. simpl. by rewrite Ha.
  - simpl in *. by rewrite Ha, IH.
Qed.

Lemma trim_avoids (c : ascii) (s : string) :
  avoids c s = true -> avoids c (trim s) = true.
Proof. intros H. by apply trimEnd_avoids, trimStart_avoids. Qed.

Lemma split_not_nil (sep : ascii) (s : string) : split sep s <> [].
Proof.
  destruct s as [|a r]; simpl; [done|].
  destruct (Ascii.eqb a sep); [done|]. by destruct (split sep r).
Qed.

(** The pieces of [split]: the first one holds no separator, and what
    follows it, if anything, is the separator and the rest of the input. *)
Lemma split_inv (sep : ascii) (s piece : string) (pieces : list string) :
  split sep s = piece :: pieces ->
  avoids sep piece = true
  /\ ((pieces = [] /\ s = piece)
      \/ exists s', s = piece +:+ String sep s' /\ split sep s' = pieces).
Proof.
  revert piece pieces.
  induction s as [|a r IH]; intros piece pieces; simpl.
  - intros [= <- <-]. split; [done | by left].
  - destruct (Ascii.eqb_spec a sep) as [->|Hne].
    + intros [= <- <-]. split; [done|]. right. by exists r.
    + destruct (split sep r) as [|h t] eqn:E;
        [by destruct (split_not_nil sep r)|].
      intros [= <- <-].
      destruct (IH h t eq_refl) as [Hh Hcases]. split.
      * simpl. rewrite Hh, andb_true_r. apply negb_true_iff.
        by destruct (Ascii.eqb_spec a sep).
      * destruct Hcases as [[-> ->] | (s' & -> & Hs')]; [by left|].
        right. by exists s'.
Qed.

Lemma split_pieces_avoid (sep : ascii) (s : string) :
  Forall (fun piece => avoids sep piece = true) (split sep s).
Proof.
  remember (split sep s) as l eqn:E. revert s E.
  induction l as [|piece pieces IH]; intros s E; [constructor|].
  symmetry in E. destruct (split_inv _ _ _ _ E) as [Hp Hcases].
  constructor; [done|].
  destruct Hcases as [[-> _] | (s' & _ & Hs')]; [constructor|].
  by apply (IH s').
Qed.

Lemma startsWith_split (p s : string) :
  startsWith p s = true ->
  s = p +:+ sliceFrom (String.length p) s.
Proof.
  revert s. induction p as [|a p IH]; intros [|b s]; simpl; try done.
  intros [Hab Hs]%andb_prop. apply Ascii.eqb_eq in Hab as ->.
  change (String b s = String b (p +:+ sliceFrom (String.length p) s)).
  f_equal. by apply IH.
Qed.

Lemma startsWith_app (p s : string) :
  startsWith p (p +:+ s) = true /\ sliceFrom (String.length p) (p +:+ s) = s.
Proof.
  induction p as [|a p [IH1 IH2]]; [done|].
  change (String a p +:+ s) with (String a (p +:+ s)). simpl.
  by rewrite Ascii.eqb_refl, IH1, IH2.
Qed.

End JsMoreFacts.

(** ** More on the request gate *)

Section GateMore.
Import Config Credentials Gate ExtractFacts GateProps.
Context `{!SecurityLib}.

Lemma validateRequest_returns (cfg : UnifiedConfig) (req : Request) (u : unit) :
  validateRequest cfg (req_headers req) = Returns u ->
  validateRequest cfg (req_headers req) = Returns tt.
Proof. by destruct u. Qed.

(** X1. The gate fails closed: with strategy bearer, authentication
    enabled and no secret configured (absent or empty), no request is
    admitted, by either adapter, whatever its headers. *)
Theorem gate_fails_closed_without_secret (cfg : UnifiedConfig)
  (req : Request) (sid uuid : string) :
  AUTH_STRATEGY cfg = bearer -> AUTH_ENABLED cfg = true ->
  Js.truthyOpt (BEARER_TOKEN cfg) = false ->
  (forall ctx, Hono.createMcpSecurityMiddleware cfg req uuid <> Hono.Next ctx)
  /\ Workers.checkAuthAndChallenge req cfg sid <> None.
Proof.
  intros Hst Hen Hsec. split.
  - intros ctx. unfold Hono.createMcpSecurityMiddleware.
    destruct (validateRequest cfg (req_headers req)) as [u|msg]; [|done].
    simpl. unfold Hono.authorize.
    rewrite (auth_required _ Hst Hen), Hst, Hsec. simpl.
    by repeat case_match.
  - unfold Workers.checkAuthAndChallenge.
    destruct (validateRequest cfg (req_headers req)) as [u|msg]; [|done].
    rewrite (auth_required _ Hst Hen), Hst, Hsec. simpl.
    by repeat case_match.
Qed.

(** X2. When authentication is required, an admitted request has passed
    both validations and carries an [Authorization] header from which the
    adapter extracts exactly the configured, non-empty secret; the Hono
    middleware then attaches a context that holds that header as it
    came. *)
Theorem admission_requires_the_secret (cfg : UnifiedConfig) (req : Request)
  (sid uuid : string) :
  noAuthRequired cfg = false ->
  (forall ctx, Hono.createMcpSecurityMiddleware cfg req uuid = Hono.Next ctx ->
     exists auth secret,
       validateRequest cfg (req_headers req) = Returns tt
       /\ headerGet (req_headers req) "Authorization" = Some auth
       /\ BEARER_TOKEN cfg = Some secret /\ secret <> ""
       /\ Hono.extractBearer auth = Some secret
       /\ ctx = Some {| strategy := bearer;
                        authHeaders := [("authorization", auth)];
                        resolvedHeaders := [("authorization", auth)] |})
  /\ (Workers.checkAuthAndChallenge req cfg sid = None ->
      exists auth secret,
        validateRequest cfg (req_headers req) = Returns tt
        /\ headerGet (req_headers req) "Authorization" = Some auth
        /\ BEARER_TOKEN cfg = Some secret /\ secret <> ""
        /\ Workers.extractBearer (Some auth) = Some secret).
Proof.
  intros Hreq.
  assert (AUTH_STRATEGY cfg = bearer) as Hst.
  { unfold noAuthRequired in Hreq. apply orb_false_elim in Hreq as [_ Hs].
    apply bool_decide_eq_false in Hs. by destruct (AUTH_STRATEGY cfg). }
  split.
  - intros ctx. unfold Hono.createMcpSecurityMiddleware.
    destruct (validateRequest cfg (req_headers req)) as [[]|msg] eqn:Hval;
      [|done].
    simpl. unfold Hono.authorize. rewrite Hreq, Hst.
    destruct (headerGet (req_headers req) "Authorization") as [auth|];
      [|done].
    simpl. destruct (Js.truthy auth); [|done]. simpl.
    destruct (Hono.extractBearer auth) as [tok|] eqn:Htok; [|done].
    simpl. destruct (Js.truthy tok) eqn:Htr; [|done]. simpl.
    destruct (BEARER_TOKEN cfg) as [secret|]; [|done]. simpl.
    destruct (Js.truthy secret) eqn:Hs; [|done]. simpl.
    case_bool_decide as Hne; [done|].
    intros [= <-]. exists auth, secret.
    assert (tok = secret) as -> by congruence.
    repeat split; try done. by intros ->.
  - unfold Workers.checkAuthAndChallenge.
    destruct (validateRequest cfg (req_headers req)) as [[]|msg] eqn:Hval;
      [|done].
    rewrite Hreq, Hst.
    destruct (headerGet (req_headers req) "Authorization") as [auth|];
      [|done].
    destruct (Workers.extractBearer (Some auth)) as [tok|] eqn:Htok; [|done].
    simpl. destruct (Js.truthy tok) eqn:Htr; [|done]. simpl.
    destruct (BEARER_TOKEN cfg) as [secret|]; [|done]. simpl.
    destruct (Js.truthy secret) eqn:Hs; [|done]. simpl.
    case_bool_decide as Hne; [done|].
    intros _. exists auth, secret.
    assert (tok = secret) as -> by congruence.
    repeat split; try done. by intros ->.
Qed.

(** X3. What the Hono middleware answers when it does not call [next()]:
    either validation threw and the answer is the internal error made from
    the thrown message, with status 500, the JSON content type that
    [c.json] sets, and neither a [Mcp-Session-Id] nor a [WWW-Authenticate]
    header; or validation passed and the answer is a challenge with one of
    four messages, the JSON content type, a [WWW-Authenticate] header, and
    a [Mcp-Session-Id] header that is the request's own, or the fresh UUID
    when it has none. The internal error is the answer exactly when
    validation throws. *)
Theorem hono_reply_is_internal_error_or_challenge (cfg : UnifiedConfig)
  (req : Request) (uuid : string) (r : Response) :
  Hono.createMcpSecurityMiddleware cfg req uuid = Hono.Reply r ->
  let sid := default uuid (headerGet (req_headers req) "Mcp-Session-Id") in
  (exists msg, validateRequest cfg (req_headers req) = Throws msg
               /\ r = Hono.internalError msg
               /\ status r = 500
               /\ resp_headers r = [("Content-Type", "application/json")]
               /\ respHeader r "Mcp-Session-Id" = None
               /\ respHeader r "WWW-Authenticate" = None)
  \/ (validateRequest cfg (req_headers req) = Returns tt
      /\ (exists message,
            r = Hono.challengeResponse (url_origin req) sid message
            /\ In message [None; Some "Bearer token required";
                           Some "Server misconfigured"; Some "Invalid token"])
      /\ respHeader r "Content-Type" = Some "application/json"
      /\ respHeader r "Mcp-Session-Id" = Some sid
      /\ is_Some (respHeader r "WWW-Authenticate")).
Proof.
  intros Hr sid. unfold Hono.createMcpSecurityMiddleware in Hr.
  destruct (validateRequest cfg (req_headers req)) as [[]|msg]; simpl in Hr.
  - right. split; [done|].
    assert (exists message,
              r = Hono.challengeResponse (url_origin req) sid message
              /\ In message [None; Some "Bearer token required";
                             Some "Server misconfigured";
                             Some "Invalid token"]) as (m & -> & Hm).
    { unfold Hono.authorize in Hr. fold sid in Hr.
      repeat case_match; try done; injection Hr as <-;
        eexists; (split; [reflexivity|]); simpl; tauto. }
    split; [by exists m|]. split; [done|]. split; [done | by eexists].
  - injection Hr as <-. left. by exists msg.
Qed.

(** X4. What the Workers handler answers when it refuses: always a
    challenge, built for the session id its caller handed in and passed
    through [withCors]; before that pass it names the JSON content type,
    carries that session id and a [WWW-Authenticate] header. *)
Theorem workers_refusal_is_a_challenge (cfg : UnifiedConfig) (req : Request)
  (sid : string) (resp : Response) :
  Workers.checkAuthAndChallenge req cfg sid = Some resp ->
  exists message r,
    resp = Workers.buildChallengeResponse (url_origin req) sid message
    /\ resp = withCors r
    /\ respHeader r "Content-Type" = Some "application/json"
    /\ respHeader r "Mcp-Session-Id" = Some sid
    /\ is_Some (respHeader r "WWW-Authenticate")
    /\ (forall msg, validateRequest cfg (req_headers req) = Throws msg ->
                    message = Some msg).
Proof.
  unfold Workers.checkAuthAndChallenge.
  destruct (validateRequest cfg (req_headers req)) as [[]|msg].
  - intros Hr.
    assert (exists message,
              resp = Workers.buildChallengeResponse (url_origin req) sid
                       message) as [m ->].
    { repeat case_match; try done; injection Hr as <-; by eexists. }
    exists m. unfold Workers.buildChallengeResponse. eexists.
    split; [done|]. split; [done|].
    repeat split; try done; try (by eexists).
  - intros [= <-]. exists (Some msg).
    unfold Workers.buildChallengeResponse. eexists.
    split; [done|]. split; [done|].
    repeat split; try done; try (by eexists).
    by intros msg' [= ->].
Qed.

(** X5. A request without credentials (no [Authorization] header, or an
    empty one) is admitted exactly when it passes both validations and the
    configuration requires no authentication. *)
Theorem no_credentials_admitted_iff_open (cfg : UnifiedConfig) (req : Request)
  (sid uuid : string) :
  Js.truthyOpt (headerGet (req_headers req) "Authorization") = false ->
  ((exists ctx, Hono.createMcpSecurityMiddleware cfg req uuid = Hono.Next ctx)
   <-> validateRequest cfg (req_headers req) = Returns tt
       /\ noAuthRequired cfg = true)
  /\ (Workers.checkAuthAndChallenge req cfg sid = None
      <-> validateRequest cfg (req_headers req) = Returns tt
          /\ noAuthRequired cfg = true).
Proof.
  intros Hauth.
  assert (Js.truthyOpt
            (Workers.extractBearer
               (headerGet (req_headers req) "Authorization")) = false) as Hw.
  { destruct (headerGet (req_headers req) "Authorization") as [[|a s]|];
      done. }
  unfold Hono.createMcpSecurityMiddleware, Workers.checkAuthAndChallenge,
    Hono.authorize.
  destruct (validateRequest cfg (req_headers req)) as [[]|msg]; simpl.
  - rewrite Hauth, Hw. simpl.
    destruct (noAuthRequired cfg); split; split;
      try done; try (by intros [_ [=]]); try (by intros [? [=]]).
    intros _. by eexists.
  - split; split; try done; try (by intros [[=] _]); by intros [? [=]].
Qed.

End GateMore.

(** ** What each adapter reads in an [Authorization] value *)

Section ExtractionMore.
Import Js Credentials JsFacts JsMoreFacts Gate ExtractFacts GateProps.

Lemma append_empty_r (s : string) : s +:+ "" = s.
Proof.
  induction s as [|a s IH]; [done|].
  change (String a s +:+ "") with (String a (s +:+ "")). by rewrite IH.
Qed.

(** X6. What the Workers handler reads. It extracts a token exactly from
    the values that read: white space if any, the word bearer in any
    capitalisation, at least one white space character, and a rest that is
    not empty and holds no line terminator; the token is that rest,
    trimmed. *)
Theorem workers_extraction_reads (auth : string) :
  (forall tok, Workers.extractBearer (Some auth) = Some tok ->
     exists ws word ws' rest,
       auth = ws +:+ word +:+ ws' +:+ rest
       /\ allWhiteSpace ws = true
       /\ toLowerCase word = "bearer"
       /\ ws' <> "" /\ allWhiteSpace ws' = true
       /\ rest <> "" /\ noLineTerminator rest = true
       /\ tok = trim rest)
  /\ (forall ws word ws' rest,
        auth = ws +:+ word +:+ ws' +:+ rest ->
        allWhiteSpace ws = true ->
        toLowerCase word = "bearer" ->
        ws' <> "" -> allWhiteSpace ws' = true ->
        rest <> "" -> noLineTerminator rest = true ->
        is_Some (Workers.extractBearer (Some auth))).
Proof.
  unfold Workers.extractBearer. simpl. split.
  - intros tok Htok.
    destruct (matchBearer auth) as [g|] eqn:Hg; [|done].
    injection Htok as <-.
    destruct (matchBearer_split _ _ Hg)
      as (ws & word & ws' & -> & Hws & Hword & _ & Hne & Hws' & Hg1 & Hg2).
    exists ws, word, ws', g. repeat split; try done. by intros ->.
  - intros ws word ws' rest -> Hws Hword Hne Hws' Hrest Hlt.
    assert (truthy rest = true) as Htruthy by (by destruct rest).
    by destruct (matchBearer_found ws word ws' rest) as [g ->].
Qed.

(** X7. What the Hono middleware reads. It extracts a non-empty token
    exactly from the values that read: the word bearer in any
    capitalisation, one space, a piece without space, and then nothing or
    a space and anything; the token is that piece, trimmed. *)
Theorem hono_extraction_reads (auth : string) :
  (forall tok, Hono.extractBearer auth = Some tok -> tok <> "" ->
     exists scheme piece rest,
       auth = scheme +:+ " " +:+ piece +:+ rest
       /\ toLowerCase scheme = "bearer"
       /\ avoids " " piece = true
       /\ (rest = "" \/ exists r, rest = String " " r)
       /\ tok = trim piece)
  /\ (forall scheme piece rest,
        auth = scheme +:+ " " +:+ piece +:+ rest ->
        toLowerCase scheme = "bearer" ->
        avoids " " piece = true ->
        rest = "" \/ (exists r, rest = String " " r) ->
        Hono.extractBearer auth = Some (trim piece)).
Proof.
  unfold Hono.extractBearer, splitLimit. split.
  - intros tok Htok Hne.
    destruct (split " " auth) as [|scheme l] eqn:Hsplit;
      [by destruct (split_not_nil " " auth)|].
    simpl in Htok. case_bool_decide as Hs; [|congruence].
    injection Hs as Hs.
    destruct l as [|piece l]; [done|]. simpl in Htok. injection Htok as <-.
    destruct (split_inv _ _ _ _ Hsplit) as [_ [[? _] | (s' & -> & Hs')]];
      [done|].
    destruct (split_inv _ _ _ _ Hs') as [Hp Hcases].
    exists scheme, piece.
    destruct Hcases as [[-> ->] | (s'' & -> & _)].
    + exists "". rewrite append_empty_r. repeat split; try done. by left.
    + exists (String " " s''). repeat split; try done. right. by eexists.
  - intros scheme piece rest -> Hs Hp Hrest.
    destruct (scheme_shape scheme Hs) as (Hav & _ & _).
    change (" " +:+ piece +:+ rest) with (String " " (piece +:+ rest)).
    rewrite (split_app_sep " " scheme _ Hav).
    assert (exists l, split " " (piece +:+ rest) = piece :: l) as [l ->].
    { destruct Hrest as [-> | [r ->]].
      - rewrite append_empty_r, (split_avoids _ _ Hp). by eexists.
      - rewrite (split_app_sep " " piece r Hp). by eexists. }
    simpl. rewrite Hs. by rewrite bool_decide_eq_true_2.
Qed.

End ExtractionMore.

Section AgreementMore.
Import Config Credentials Gate ExtractFacts GateProps.
Context `{!SecurityLib}.

(** X8. Where the two adapters agree. On a request that passes both
    validations and that either needs no authentication, or carries no
    credentials, or carries a well-formed bearer header while a secret is
    configured, the two adapters take the same decision; when they refuse,
    they build the challenge from the same origin, session id and
    message. *)
Theorem adapters_agree_on_plain_requests (cfg : UnifiedConfig)
  (req : Request) (sid uuid : string) :
  validateRequest cfg (req_headers req) = Returns tt ->
  sid = default uuid (headerGet (req_headers req) "Mcp-Session-Id") ->
  noAuthRequired cfg = true
  \/ Js.truthyOpt (headerGet (req_headers req) "Authorization") = false
  \/ (exists secret auth tok,
        AUTH_STRATEGY cfg = bearer /\ AUTH_ENABLED cfg = true
        /\ BEARER_TOKEN cfg = Some secret /\ secret <> ""
        /\ headerGet (req_headers req) "Authorization" = Some auth
        /\ isBearerHeader auth tok) ->
  ((exists ctx, Hono.createMcpSecurityMiddleware cfg req uuid = Hono.Next ctx)
   /\ Workers.checkAuthAndChallenge req cfg sid = None)
  \/ (exists message,
        Hono.createMcpSecurityMiddleware cfg req uuid
        = Hono.Reply (Hono.challengeResponse (url_origin req) sid message)
        /\ Workers.checkAuthAndChallenge req cfg sid
           = Some (Workers.buildChallengeResponse (url_origin req) sid
                     message)).
Proof.
  intros Hval -> Hcases.
  destruct (noAuthRequired cfg) eqn:Hno.
  - left. rewrite (hono_validation_passed _ _ _ _ Hval).
    unfold Hono.authorize, Workers.checkAuthAndChallenge.
    rewrite Hval, Hno. split; [by eexists | done].
  - destruct Hcases as [? | [Hauth | Hwf]]; [done | |].
    + right. exists None.
      rewrite (hono_validation_passed _ _ _ _ Hval).
      unfold Hono.authorize, Workers.checkAuthAndChallenge.
      rewrite Hval, Hno, Hauth. simpl.
      by destruct (headerGet (req_headers req) "Authorization") as [[|a s]|].
    + destruct Hwf as (secret & auth & tok & Hst & Hen & Hsec & Hne & Hauth
                       & Hwf).
      destruct (adapters_agree_wellformed cfg req _ uuid secret auth tok tt
                  Hst Hen Hsec Hne Hval Hauth Hwf eq_refl)
        as [[[ctx Hh] Hw] | Hrefuse].
      * left. split; [by eexists | done].
      * by right.
Qed.

End AgreementMore.

(** ** The bearer helpers and the strategy module *)

Section HelperResults.
Import Js JsMore Credentials JsFacts JsMoreFacts Gate ExtractFacts GateProps.
Import BearerHelpers.

Lemma toLowerCase_length (s : string) :
  String.length (toLowerCase s) = String.length s.
Proof. induction s as [|a s IH]; [done|]. simpl. by rewrite IH. Qed.

Lemma startsWith_same_length (p q s1 s2 : string) :
  String.length p = String.length s1 ->
  startsWith (p +:+ q) (s1 +:+ s2) = true -> s1 = p.
Proof.
  revert s1. induction p as [|a p IH]; intros [|b s1]; try done.
  intros [= Hlen].
  change (String a p +:+ q) with (String a (p +:+ q)).
  change (String b s1 +:+ s2) with (String b (s1 +:+ s2)). simpl.
  intros [Hab Hs]%andb_prop. apply Ascii.eqb_eq in Hab as ->.
  by rewrite (IH s1 Hlen Hs).
Qed.

Lemma bearer_scheme_exact (scheme rest : string) :
  toLowerCase scheme = "bearer" ->
  startsWith "Bearer " (scheme +:+ " " +:+ rest) = true ->
  scheme = "Bearer".
Proof.
  intros Hs. apply (startsWith_same_length "Bearer" " ").
  by rewrite <- (toLowerCase_length scheme), Hs.
Qed.

Lemma matchBearer_wellformed (auth tok : string) :
  isBearerHeader auth tok -> matchBearer auth = Some tok.
Proof.
  intros Hwf. pose proof (workers_extract_wellformed _ _ Hwf) as Hw.
  unfold Workers.extractBearer in Hw. simpl in Hw.
  destruct (matchBearer auth) as [g|] eqn:Hg; [|done].
  destruct Hwf as (scheme & Hs & -> & [Hne Hws]%andb_prop).
  unfold matchBearer in Hg.
  assert (trimStart (scheme +:+ " " +:+ tok) = scheme +:+ " " +:+ tok) as Ht.
  { destruct scheme as [|a r]; [done|].
    apply trimStart_app_head, (toLowerCase_noWhiteSpace_head a r).
    by rewrite Hs. }
  rewrite Ht, (matchLiteralCI_lower "Bearer" scheme (" " +:+ tok)) in Hg
    by done.
  change (" " +:+ tok) with (String " " tok) in Hg. simpl in Hg.
  destruct tok as [|b r]; [done|]. simpl in Hws, Hg.
  apply andb_prop in Hws as [Hb Hr]. apply negb_true_iff in Hb.
  rewrite Hb in Hg. unfold matchDotPlusEnd in Hg.
  destruct (truthy (String b r) && noLineTerminator (String b r)); congruence.
Qed.

(** X9. [validateBearer] is strict about the spelling of the scheme where
    the gate is not. On a header that reads scheme, one space, token, with
    the scheme bearer in any capitalisation, both adapters of the gate
    extract the token; [validateBearer] returns it only when the scheme is
    spelled [Bearer], and [null] otherwise. *)
Theorem validateBearer_is_case_sensitive (h : gmap string string)
  (scheme tok : string) :
  headerGet h "Authorization" = Some (scheme +:+ " " +:+ tok) ->
  toLowerCase scheme = "bearer" ->
  isToken tok = true ->
  validateBearer h = (if bool_decide (scheme = "Bearer") then Some tok
                      else None)
  /\ Hono.extractBearer (scheme +:+ " " +:+ tok) = Some tok
  /\ Workers.extractBearer (Some (scheme +:+ " " +:+ tok)) = Some tok.
Proof.
  intros Hauth Hs Htok.
  assert (isBearerHeader (scheme +:+ " " +:+ tok) tok) as Hwf
    by (by exists scheme).
  split; [|split];
    [| by apply hono_extract_wellformed | by apply workers_extract_wellformed].
  destruct (bearerHeader_truthy _ _ Hwf) as [Ha _].
  unfold validateBearer. rewrite Hauth.
  unfold truthyOpt, default. rewrite Ha. cbv iota. rewrite Ha.
  change (negb true) with false. rewrite orb_false_l. unfold id.
  case_bool_decide as Hb.
  - subst scheme.
    change ("Bearer" +:+ " " +:+ tok) with ("Bearer " +:+ tok).
    destruct (startsWith_app "Bearer " tok) as [-> ->]. simpl.
    apply andb_prop in Htok as [_ Hws]. by rewrite (trim_noWhiteSpace _ Hws).
  - destruct (startsWith "Bearer " (scheme +:+ " " +:+ tok)) eqn:Hsw; [|done].
    by destruct Hb; apply (bearer_scheme_exact scheme tok).
Qed.

(** X10. [requireBearerOr401] hands back a token only when the
    [Authorization] header starts with [Bearer ] and something other than
    white space follows; the token is what follows, trimmed, so it is not
    empty and has no white space around it. In every other case the
    answer is the 401 response with the [WWW-Authenticate] header. *)
Theorem requireBearerOr401_token_is_clean (h : gmap string string) :
  match requireBearerOr401 h with
  | inl token =>
      token <> "" /\ trim token = token
      /\ exists rest, headerGet h "Authorization" = Some ("Bearer " +:+ rest)
                      /\ token = trim rest
  | inr r =>
      (validateBearer h = None \/ validateBearer h = Some "")
      /\ status r = 401
      /\ is_Some (respHeader r "WWW-Authenticate")
      /\ body r = {| error_code := -32000; error_message := "Unauthorized" |}
  end.
Proof.
  unfold requireBearerOr401.
  destruct (validateBearer h) as [token|] eqn:Hv; simpl.
  - destruct token as [|a token]; simpl.
    + split; [by right|]. split; [done|]. split; [by eexists | done].
    + unfold validateBearer in Hv.
      change (headerGet h "authorization") with (headerGet h "Authorization")
        in Hv.
      destruct (headerGet h "Authorization") as [auth|] eqn:Hauth; [|done].
      assert ((if truthyOpt (Some auth) then Some auth else Some auth)
              = Some auth) as Heq by (by destruct (truthyOpt (Some auth))).
      rewrite Heq in Hv. unfold truthyOpt, default, id in Hv.
      destruct (negb (truthy auth) || negb (startsWith "Bearer " auth))
        eqn:Hc; [done|].
      apply orb_false_elim in Hc as [_ Hsw]. apply negb_false_iff in Hsw.
      injection Hv as Hv. split; [done|]. split.
      * rewrite <- Hv. apply trim_idem.
      * exists (sliceFrom (String.length "Bearer ") auth).
        split; [|done]. f_equal. by apply startsWith_split.
  - split; [by left|]. split; [done|]. split; [by eexists | done].
Qed.

End HelperResults.

Section StrategyResults.
Import Js Credentials JsFacts JsMoreFacts Gate Config ConfigFacts.

(** X11. [validateBearerToken] fails closed and compares exactly. Without
    an expected token (absent or empty) or without a header it answers
    false. When it answers true, the header matches the bearer pattern and
    the group of the match is the expected token, character for character:
    nothing is trimmed here, while the Workers handler trims the same
    group. *)
Theorem validateBearerToken_is_exact (authHeader expectedToken : option string) :
  (Js.truthyOpt expectedToken = false \/ Js.truthyOpt authHeader = false ->
   Strategy.validateBearerToken authHeader expectedToken = false)
  /\ (Strategy.validateBearerToken authHeader expectedToken = true ->
      exists auth expected,
        authHeader = Some auth /\ expectedToken = Some expected
        /\ expected <> ""
        /\ matchBearer auth = Some expected
        /\ Workers.extractBearer authHeader = Some (trim expected)).
Proof.
  unfold Strategy.validateBearerToken. split.
  - intros [-> | Ha]; [done|]. rewrite Ha. by destruct (truthyOpt expectedToken).
  - destruct expectedToken as [[|e expected]|]; try done.
    destruct authHeader as [[|a auth]|]; try done.
    change (negb (truthyOpt (Some (String e expected)))) with false.
    change (negb (truthyOpt (Some (String a auth)))) with false.
    cbv iota. rewrite bool_decide_eq_true. simpl. intros Hm.
    exists (String a auth), (String e expected).
    repeat split; try done. unfold Workers.extractBearer. simpl.
    by rewrite Hm.
Qed.

(** X12. On a well-formed bearer header, [validateBearerToken] with a
    non-empty expected token answers true exactly when the token of the
    header is the expected one. *)
Theorem validateBearerToken_on_wellformed (auth tok expected : string) :
  isBearerHeader auth tok -> expected <> "" ->
  Strategy.validateBearerToken (Some auth) (Some expected)
  = bool_decide (tok = expected).
Proof.
  intros Hwf Hne.
  destruct (GateProps.bearerHeader_truthy _ _ Hwf) as [Ha _].
  unfold Strategy.validateBearerToken. simpl.
  rewrite Ha, (matchBearer_wellformed _ _ Hwf).
  destruct expected; [done|]. simpl.
  repeat case_bool_decide; congruence.
Qed.

(** X13. The two readers of the strategy. The strategy module resolves to
    none exactly when the selector lower-cases to [none] or the enable
    flag is the string or the boolean false, and to bearer otherwise,
    keeping the bearer token as the expected value. The configuration
    reader agrees with it except on one kind of environment: one that is
    not switched off, sets no secret and does not enable authentication.
    There the strategy module says bearer, without a value, while the
    configuration reader says none. *)
Theorem strategy_readers_differ_only_when_nothing_is_set (env : RawEnv) :
  let selectsNone :=
    exists s, env_AUTH_STRATEGY env = Some s /\ toLowerCase s = "none" in
  let disabled :=
    env_AUTH_ENABLED env = EStr "false" \/ env_AUTH_ENABLED env = EBool false in
  let secretSet := exists s, env_BEARER_TOKEN env = Some s /\ s <> "" in
  let enabled :=
    env_AUTH_ENABLED env = EBool true
    \/ exists s, env_AUTH_ENABLED env = EStr s /\ toLowerCase s = "true" in
  (Strategy.type (Strategy.parseAuthStrategy env) = none
   <-> selectsNone \/ disabled)
  /\ (Strategy.type (Strategy.parseAuthStrategy env) = bearer ->
      Strategy.value (Strategy.parseAuthStrategy env) = env_BEARER_TOKEN env)
  /\ (Strategy.type (Strategy.parseAuthStrategy env) <> parseAuthStrategy env
      <-> ~ (selectsNone \/ disabled) /\ ~ secretSet /\ ~ enabled)
  /\ (Strategy.type (Strategy.parseAuthStrategy env) <> parseAuthStrategy env ->
      Strategy.type (Strategy.parseAuthStrategy env) = bearer
      /\ parseAuthStrategy env = none
      /\ Strategy.validateAuthConfig (Strategy.parseAuthStrategy env) <> []).
Proof.
  intros selectsNone disabled secretSet enabled.
  assert (bool_decide (explicitStrategy env = Some "none")
          || explicitlyDisabled env = true <-> selectsNone \/ disabled) as Hnone.
  { rewrite orb_true_iff, bool_decide_eq_true.
    by rewrite selectsNone_iff, explicitlyDisabled_true_iff. }
  assert (Js.truthyOpt (env_BEARER_TOKEN env) = true <-> secretSet) as Hsec
    by apply secretSet_iff.
  assert (parseBoolean (env_AUTH_ENABLED env) = true <-> enabled) as Hen
    by apply parseBoolean_true_iff.
  unfold Strategy.parseAuthStrategy, parseAuthStrategy,
    Strategy.validateAuthConfig.
  change (toLowerCase <$> env_AUTH_STRATEGY env) with (explicitStrategy env).
  destruct (bool_decide (explicitStrategy env = Some "none")
            || explicitlyDisabled env); simpl.
  - repeat split; try done; try tauto.
  - destruct (Js.truthyOpt (env_BEARER_TOKEN env));
      destruct (parseBoolean (env_AUTH_ENABLED env)); simpl;
      repeat split; try done; try tauto;
      try (intros Hn%Hnone; discriminate Hn);
      try (intros Hn%Hsec; discriminate Hn);
      try (intros Hn%Hen; discriminate Hn).
Qed.

(** X14. The validation of the resolved strategy. [validateAuthConfig]
    finds nothing to report exactly when the strategy is switched off or a
    non-empty secret is set, and otherwise reports the one missing-secret
    error; [requiresAuth] holds exactly when the strategy is not switched
    off; and the access token resolved for a request is the secret under
    bearer and nothing under none. *)
Theorem validateAuthConfig_of_environment (env : RawEnv) :
  let selectsNone :=
    exists s, env_AUTH_STRATEGY env = Some s /\ toLowerCase s = "none" in
  let disabled :=
    env_AUTH_ENABLED env = EStr "false" \/ env_AUTH_ENABLED env = EBool false in
  let secretSet := exists s, env_BEARER_TOKEN env = Some s /\ s <> "" in
  let config := Strategy.parseAuthStrategy env in
  (Strategy.validateAuthConfig config = []
   <-> selectsNone \/ disabled \/ secretSet)
  /\ (Strategy.validateAuthConfig config <> [] ->
      Strategy.validateAuthConfig config
      = ["BEARER_TOKEN is required when AUTH_STRATEGY=bearer"])
  /\ (Strategy.requiresAuth config = true <-> ~ (selectsNone \/ disabled))
  /\ Strategy.accessToken (Strategy.resolveStaticAuth config)
     = (if Strategy.requiresAuth config then env_BEARER_TOKEN env else None).
Proof.
  intros selectsNone disabled secretSet config.
  assert (bool_decide (explicitStrategy env = Some "none")
          || explicitlyDisabled env = true <-> selectsNone \/ disabled) as Hnone.
  { rewrite orb_true_iff, bool_decide_eq_true.
    by rewrite selectsNone_iff, explicitlyDisabled_true_iff. }
  assert (Js.truthyOpt (env_BEARER_TOKEN env) = true <-> secretSet) as Hsec
    by apply secretSet_iff.
  unfold config, Strategy.parseAuthStrategy, Strategy.validateAuthConfig,
    Strategy.requiresAuth, Strategy.resolveStaticAuth.
  change (toLowerCase <$> env_AUTH_STRATEGY env) with (explicitStrategy env).
  destruct (bool_decide (explicitStrategy env = Some "none")
            || explicitlyDisabled env); simpl.
  - repeat split; try done; try tauto.
  - destruct (Js.truthyOpt (env_BEARER_TOKEN env)); simpl;
      repeat split; try done; try tauto;
      try (intros Hn%Hnone; discriminate Hn).
    all: try (intros _ Hn%Hnone; discriminate Hn).
    intros Hcases.
    assert (false = true) as Hf; [|discriminate Hf].
    destruct Hcases as [Hn | [Hn | Hn]];
      [apply Hnone; by left | apply Hnone; by right | by apply Hsec].
Qed.

End StrategyResults.

(** ** More on the configuration reader *)

Section ConfigMoreResults.
Import Js JsMore Credentials JsFacts JsMoreFacts Config ConfigFacts ConfigMore.

(** X15. What [parseBoolean] reads as true, by kind of value: of the
    booleans only [true]; of the strings those that lower-case to [true];
    no number, whatever its value, and neither [undefined] nor [null]. *)
Theorem parseBoolean_by_kind :
  parseBoolean EUndefined = false
  /\ parseBoolean ENull = false
  /\ (forall b, parseBoolean (EBool b) = b)
  /\ (forall n, parseBoolean (ENum n) = false)
  /\ (forall s, parseBoolean (EStr s) = bool_decide (toLowerCase s = "true")).
Proof.
  split; [done|]. split; [done|]. split; [by intros []|]. split.
  - intros n. apply not_true_is_false. intros Hn%parseBoolean_true_iff.
    by destruct Hn as [Hn | (s & Hn & _)].
  - intros s. destruct (parseBoolean (EStr s)) eqn:E.
    + apply parseBoolean_true_iff in E as [E | (s' & [= <-] & Hs)]; [done|].
      by rewrite bool_decide_eq_true_2.
    + symmetry. apply bool_decide_eq_false. intros Hs.
      assert (parseBoolean (EStr s) = true) as Ht
        by (apply parseBoolean_true_iff; right; by exists s).
      congruence.
Qed.

Lemma stringOr_string (s : string) : stringOr (EStr s) "" = s.
Proof. unfold stringOr. by destruct s. Qed.

Lemma split_join_comma (names : list string) :
  names <> [] ->
  Forall (fun x => avoids "," x = true) names ->
  split "," (join "," names) = names.
Proof.
  induction names as [|x rest IH]; [done|]. intros _ Hall.
  apply Forall_cons in Hall as [Hx Hrest].
  destruct rest as [|y rest].
  - simpl. by apply split_avoids.
  - change (join "," (x :: y :: rest))
      with (x +:+ String "," (join "," (y :: rest))).
    rewrite (split_app_sep "," x _ Hx). f_equal. by apply IH.
Qed.

(** X16. Every element of the array that [parseStringArray] returns is a
    trimmed piece of the comma-separated text: it is not empty, has no
    white space around it and holds no comma. A value that is falsy
    ([undefined], [null], [false], [0], the empty string) gives the empty
    array. *)
Theorem parseStringArray_elements_are_clean (value : EnvValue) :
  (forall x, In x (parseStringArray value) ->
     cleanName x
     /\ exists piece, In piece (split "," (stringOr value "")) /\ x = trim piece)
  /\ (envTruthy value = false -> parseStringArray value = []).
Proof.
  unfold parseStringArray. split.
  - intros x [Hin Htruthy]%filter_In.
    apply in_map_iff in Hin as (piece & <- & Hpiece).
    split; [|by exists piece].
    split; [by intros Hx; rewrite Hx in Htruthy|].
    split; [apply trim_idem|].
    apply trim_avoids.
    pose proof (split_pieces_avoid "," (stringOr value "")) as Hall.
    rewrite List.Forall_forall in Hall. by apply Hall.
  - unfold stringOr. by intros ->.
Qed.

(** X17. Round trip: joining clean names with commas and reading the text
    back with [parseStringArray] gives the names again, in order. *)
Theorem parseStringArray_reads_back_joined_names (names : list string) :
  Forall cleanName names ->
  parseStringArray (EStr (join "," names)) = names.
Proof.
  intros Hall. unfold parseStringArray. rewrite stringOr_string.
  destruct names as [|x rest]; [done|].
  rewrite split_join_comma; [|done|].
  - induction Hall as [|y l (Hne & Htrim & _) _ IH]; [done|].
    simpl. rewrite Htrim. destruct y; [done|]. simpl. by rewrite IH.
  - eapply Forall_impl; [exact Hall|]. by intros y (_ & _ & Hy).
Qed.

End ConfigMoreResults.

(** ** More on the in-memory store *)

Section MemoryMoreResults.
Import Storage MemoryFacts.

Lemma get_none_evicts (st : MemorySessionStore) (id : string) (now : Z) :
  snd (Memory.get st id now) = None ->
  sessions (fst (Memory.get st id now)) !! id = None
  /\ ttlMs (fst (Memory.get st id now)) = ttlMs st.
Proof.
  unfold Memory.get. destruct (sessions st !! id) as [e|] eqn:He; [|done].
  destruct (now >? expiresAt e); [|done]. simpl. intros _.
  split; [apply lookup_delete_eq | done].
Qed.

(** X18. What [get] reports. It returns a record exactly when the map
    holds an entry for the id that has not expired, and then leaves the
    store as it is. When it returns nothing, the id is no longer in the
    map afterwards (an expired entry is evicted) and no other id is
    touched. *)
Theorem get_reports_live_entries_only (st : MemorySessionStore) (id : string)
  (now : Z) :
  (forall r, snd (Memory.get st id now) = Some r
     <-> exists e, sessions st !! id = Some e /\ record e = r
                   /\ now <= expiresAt e)
  /\ (forall r, snd (Memory.get st id now) = Some r ->
        fst (Memory.get st id now) = st)
  /\ (snd (Memory.get st id now) = None ->
      sessions (fst (Memory.get st id now)) !! id = None
      /\ forall id', id' <> id ->
           sessions (fst (Memory.get st id now)) !! id' = sessions st !! id').
Proof.
  unfold Memory.get.
  destruct (sessions st !! id) as [e|] eqn:He.
  - destruct (Z.gtb_spec now (expiresAt e)) as [Hgt|Hle]; simpl.
    + split; [|split]; [| done |].
      * intros r. split; [done|]. intros (e' & [= <-] & _ & Hle). lia.
      * intros _. split; [apply lookup_delete_eq|].
        intros id' Hne. by apply lookup_delete_ne.
    + split; [|split]; [| done | done].
      intros r. split.
      * intros [= <-]. by exists e.
      * by intros (e' & [= <-] & <- & _).
  - simpl. split; [|split]; [| done | done].
    intros r. split; [done|]. by intros (e' & [=] & _).
Qed.

(** X19. Writing and reading back. A record written by [put] at time [t1]
    is what [get] returns at time [t2] exactly as long as [t2] is no
    later than [t1] plus the time to live; past that [get] returns
    nothing. Writing one id changes nothing of what [get] returns for
    another. *)
Theorem put_then_get (st : MemorySessionStore) (id : string)
  (r : SessionRecord) (t1 t2 : Z) :
  (t2 <= t1 + ttlMs st ->
     Memory.get (Memory.put st id r t1) id t2
     = (Memory.put st id r t1, Some r))
  /\ (t1 + ttlMs st < t2 ->
      snd (Memory.get (Memory.put st id r t1) id t2) = None)
  /\ (forall id', id' <> id ->
        snd (Memory.get (Memory.put st id r t1) id' t2)
        = snd (Memory.get st id' t2)).
Proof.
  split; [|split].
  - intros Hle. rewrite get_put.
    destruct (Z.gtb_spec t2 (t1 + ttlMs st)); [lia | done].
  - intros Hlt. rewrite get_put.
    destruct (Z.gtb_spec t2 (t1 + ttlMs st)); [done | lia].
  - intros id' Hne. unfold Memory.get.
    rewrite (put_lookup_ne st id id' r t1) by done.
    destruct (sessions st !! id') as [e|]; [|done].
    by destruct (t2 >? expiresAt e).
Qed.

(** X20. [put] overwrites and restarts the clock; [ensure] does neither.
    After [put], the entry holds the record just written and expires one
    time to live after that write, whatever was there before: the last
    write wins. An [ensure] that follows a [put] changes nothing, however
    long after. *)
Theorem put_overwrites_where_ensure_keeps (st : MemorySessionStore)
  (id : string) (r1 r2 : SessionRecord) (t0 t1 t2 : Z) :
  Memory.put (Memory.put st id r1 t1) id r2 t2 = Memory.put st id r2 t2
  /\ sessions (Memory.put (Memory.ensure st id t0) id r2 t2) !! id
     = Some {| record := r2; expiresAt := t2 + ttlMs st |}
  /\ Memory.ensure (Memory.put st id r1 t1) id t2 = Memory.put st id r1 t1.
Proof.
  split; [|split].
  - unfold Memory.put, setSessions. simpl. by rewrite insert_insert_eq.
  - rewrite put_lookup. do 2 f_equal.
    unfold Memory.ensure. by destruct (sessions st !! id).
  - by apply (ensure_present _ _ _ _ (put_lookup st id r1 t1)).
Qed.

(** X21. [delete] removes the session and only it: afterwards [get]
    returns nothing for the id at any time, the other ids read as before,
    and a second [delete] changes nothing. *)
Theorem delete_removes_exactly_that_session (st : MemorySessionStore)
  (id : string) (now : Z) :
  snd (Memory.get (Memory.delete st id) id now) = None
  /\ (forall id', id' <> id ->
        snd (Memory.get (Memory.delete st id) id' now)
        = snd (Memory.get st id' now))
  /\ Memory.delete (Memory.delete st id) id = Memory.delete st id.
Proof.
  split; [|split].
  - unfold Memory.get, Memory.delete. simpl. by rewrite lookup_delete_eq.
  - intros id' Hne. unfold Memory.get, Memory.delete. simpl.
    rewrite lookup_delete_ne by done.
    destruct (sessions st !! id') as [e|]; [|done].
    by destruct (now >? expiresAt e).
  - unfold Memory.delete, setSessions. simpl. f_equal.
    apply map_eq. intros k. destruct (decide (k = id)) as [->|Hne].
    + by rewrite !lookup_delete_eq.
    + by rewrite !lookup_delete_ne.
Qed.

(** X22. The sweep cannot be observed through [get]: whatever the sweep
    removed at time [t] had expired, so at any later time [get] returns
    for every id what it would have returned without the sweep. The
    entries the sweep keeps are exactly those that had not expired. *)
Theorem cleanup_is_invisible_to_get (st : MemorySessionStore) (id : string)
  (t t' : Z) :
  t <= t' ->
  snd (Memory.get (Memory.cleanup st t) id t') = snd (Memory.get st id t')
  /\ (forall e, sessions (Memory.cleanup st t) !! id = Some e
        <-> sessions st !! id = Some e /\ t <= expiresAt e).
Proof.
  intros Hle. split; [|intros e; apply cleanup_lookup].
  unfold Memory.get.
  destruct (sessions (Memory.cleanup st t) !! id) as [e|] eqn:Hc.
  - apply cleanup_lookup in Hc as [-> _].
    by destruct (t' >? expiresAt e).
  - destruct (sessions st !! id) as [e|] eqn:He; [|done].
    destruct (Z.gtb_spec t' (expiresAt e)) as [|Hlive]; [done|].
    assert (sessions (Memory.cleanup st t) !! id = Some e) as Hkeep
      by (apply cleanup_lookup; split; [done | lia]).
    congruence.
Qed.

(** X23. After a [get] that found nothing, [ensure] starts the session
    afresh: the entry it creates carries the time of the [ensure] and
    lives one time to live from then, so a [get] within that time returns
    it. (Without the [get], [ensure] leaves an expired entry alone.) *)
Theorem ensure_after_empty_get_starts_afresh (st : MemorySessionStore)
  (id : string) (t t' t'' : Z) :
  snd (Memory.get st id t) = None ->
  let st1 := fst (Memory.get st id t) in
  sessions (Memory.ensure st1 id t') !! id
  = Some {| record := {| created_at := t' |}; expiresAt := t' + ttlMs st |}
  /\ (t'' <= t' + ttlMs st ->
      snd (Memory.get (Memory.ensure st1 id t') id t'')
      = Some {| created_at := t' |}).
Proof.
  intros Hnone st1.
  destruct (get_none_evicts st id t Hnone) as [Hgone Httl].
  fold st1 in Hgone, Httl.
  rewrite (ensure_absent _ _ _ Hgone), put_lookup, Httl. split; [done|].
  intros Hle. rewrite get_put, Httl.
  destruct (Z.gtb_spec t'' (t' + ttlMs st)); [lia | done].
Qed.

End MemoryMoreResults.

(** ** More on the store on the key-value service *)

Section KvMoreResults.
Import Storage MemoryFacts KvFacts.
Context {K : Type} `{!KVNamespace K} `{!KvCodec}.

Lemma delete_fallback (st : KvSessionStore K) (id : string) :
  fallback (Kv.delete st id)
  = (fun m => Memory.delete m id) <$> fallback st.
Proof.
  unfold Kv.delete. by destruct (kv_delete (kv st) (Kv.key id)).
Qed.

(** X24. [delete] always reaches the fallback: whatever the service does
    with the request, and also when it throws, the fallback holds no entry
    for the id afterwards. So unless the service still yields a record for
    the key, a [get] that follows returns nothing. *)
Theorem kv_delete_always_clears_the_fallback (st : KvSessionStore K)
  (id : string) (now : Z) :
  (forall fb, fallback (Kv.delete st id) = Some fb ->
     sessions fb !! id = None)
  /\ ((forall parsed,
         Kv.readDurable (Kv.delete st id) id <> Returns (Some parsed)) ->
      snd (Kv.get (Kv.delete st id) id now) = None).
Proof.
  assert (forall fb, fallback (Kv.delete st id) = Some fb ->
                     sessions fb !! id = None) as Hfb.
  { intros fb. rewrite delete_fallback.
    destruct (fallback st) as [fb0|]; [|done]. simpl. intros [= <-].
    unfold Memory.delete. simpl. apply lookup_delete_eq. }
  split; [done|]. intros Hno. unfold Kv.get.
  assert (snd (Kv.fallbackGet (Kv.delete st id) id now) = None) as Hnone.
  { unfold Kv.fallbackGet.
    destruct (fallback (Kv.delete st id)) as [fb|] eqn:E; [|done].
    rewrite (get_missing fb id now (Hfb fb eq_refl)). done. }
  destruct (Kv.readDurable (Kv.delete st id) id) as [[parsed|]|msg];
    [by destruct (Hno parsed) | done | done].
Qed.

(** X25. A write is not lost while the fallback keeps it. In a store with
    a fallback, a [get] no later than the fallback's time to live after a
    [put] returns either what the service yields for the key, when it
    yields something that decrypts and parses, or else the record that was
    put; this holds for every service and codec, healthy, failing or
    corrupt. *)
Theorem write_is_not_lost_within_ttl (st : KvSessionStore K)
  (fb : MemorySessionStore) (id : string) (r : SessionRecord) (t1 t2 : Z) :
  fallback st = Some fb ->
  t2 <= t1 + ttlMs fb ->
  let st1 := Kv.put st id r t1 in
  (exists parsed, Kv.readDurable st1 id = Returns (Some parsed)
                  /\ Kv.get st1 id t2 = (st1, parsed))
  \/ ((forall parsed, Kv.readDurable st1 id <> Returns (Some parsed))
      /\ Kv.get st1 id t2 = (st1, Some r)).
Proof.
  intros Hfb Hle st1.
  assert (fallback st1 = Some (Memory.put fb id r t1)) as Hfb1
    by (unfold st1; by rewrite put_fallback, Hfb).
  assert (Kv.fallbackGet st1 id t2 = (st1, Some r)) as Hfg.
  { unfold Kv.fallbackGet. rewrite Hfb1, get_put.
    destruct (Z.gtb_spec t2 (t1 + ttlMs fb)); [lia|].
    f_equal. destruct st1; simpl in *. by subst. }
  unfold Kv.get.
  destruct (Kv.readDurable st1 id) as [[parsed|]|msg].
  - left. by exists parsed.
  - right. by split.
  - right. by split.
Qed.

(** X26. Round trip through a healthy service. When the cipher and the
    JSON codec give the record back and the service returns under the
    session's key the text that [put] stored there, [get] after [put]
    returns the record from the service: no fallback is needed, and a
    fallback that is there is not consulted. *)
Theorem healthy_service_round_trip (st : KvSessionStore K) (id : string)
  (r : SessionRecord) (t1 t2 : Z) (ciphertext plaintext : string) :
  encrypt (JSON_stringify r) = Returns ciphertext ->
  ciphertext <> "" ->
  kv_get (fst (kv_put (kv st) (Kv.key id) ciphertext SESSION_TTL_SECONDS))
         (Kv.key id)
  = Returns (Some ciphertext) ->
  decrypt ciphertext = Returns plaintext ->
  JSON_parse plaintext = Returns (Some r) ->
  let st1 := Kv.put st id r t1 in
  kv st1 = fst (kv_put (kv st) (Kv.key id) ciphertext SESSION_TTL_SECONDS)
  /\ Kv.get st1 id t2 = (st1, Some r).
Proof.
  intros Henc Hne Hget Hdec Hparse st1.
  assert (kv st1
          = fst (kv_put (kv st) (Kv.key id) ciphertext SESSION_TTL_SECONDS))
    as Hkv.
  { unfold st1, Kv.put. rewrite Henc.
    by destruct (kv_put (kv st) (Kv.key id) ciphertext SESSION_TTL_SECONDS). }
  split; [done|].
  unfold Kv.get, Kv.readDurable. rewrite Hkv, Hget. simpl.
  destruct ciphertext; [done|]. simpl. rewrite Hdec. simpl.
  by rewrite Hparse.
Qed.

End KvMoreResults.

(** ** The auth header middleware *)

Section AuthHeadersResults.
Import Config AuthHeaders.

Lemma assign_lookup (forwarded : gmap string string) (lower v k : string) :
  assign forwarded lower v !! k
  = if bool_decide (k = lower /\ lower <> "__proto__") then Some v
    else forwarded !! k.
Proof.
  unfold assign. case_bool_decide as Hp.
  - rewrite bool_decide_eq_false_2; [done|]. by intros [_ ?].
  - case_bool_decide as Hk.
    + destruct Hk as [-> _]. apply lookup_insert_eq.
    + apply lookup_insert_ne. intros <-. by apply Hk.
Qed.

Lemma forward_lookup_inv (accept : gset string)
  (incoming : list (string * string)) (forwarded : gmap string string)
  (k v : string) :
  forward accept incoming forwarded !! k = Some v ->
  forwarded !! k = Some v
  \/ (k ∈ accept /\ k <> "__proto__"
      /\ exists name, In (name, v) incoming /\ Js.toLowerCase name = k).
Proof.
  revert forwarded.
  induction incoming as [|[name v0] rest IH]; intros forwarded; simpl;
    [by left|].
  intros [Hacc | (Hk & Hp & name' & Hin & Hname)]%IH.
  - case_bool_decide as Ha; [|by left].
    rewrite assign_lookup in Hacc. case_bool_decide as Hk; [|by left].
    destruct Hk as [-> Hp]. injection Hacc as <-.
    right. repeat split; try done. exists name. by split; [left|].
  - right. repeat split; try done. exists name'. by split; [right|].
Qed.

Lemma forward_lookup_other (accept : gset string)
  (incoming : list (string * string)) (forwarded : gmap string string)
  (k : string) :
  (forall name v, In (name, v) incoming -> Js.toLowerCase name <> k) ->
  forward accept incoming forwarded !! k = forwarded !! k.
Proof.
  revert forwarded.
  induction incoming as [|[name v0] rest IH]; intros forwarded Hfresh;
    simpl; [done|].
  rewrite IH by (intros n v Hin; apply (Hfresh n v); by right).
  case_bool_decide; [|done]. rewrite assign_lookup.
  rewrite bool_decide_eq_false_2; [done|].
  intros [-> _]. by apply (Hfresh name v0); [left|].
Qed.

(** X27. The middleware forwards only what it accepts and invents
    nothing: every forwarded header has a lower-case name taken from the
    accept set (the configured names in lower case and the three standard
    ones), and its value is the value of an incoming header of that name.
    The resolved headers are the forwarded ones and the strategy is the
    configured one. *)
Theorem forwarded_headers_are_accepted_ones (acceptHeaders : list string)
  (configured : AuthStrategyType) (incoming : list (string * string)) :
  let ctx := createAuthHeaderMiddleware acceptHeaders configured incoming in
  (forall k v, authHeaders ctx !! k = Some v ->
     (k ∈ standardAuthHeaders
      \/ exists h, In h acceptHeaders /\ Js.toLowerCase h = k)
     /\ exists name, In (name, v) incoming /\ Js.toLowerCase name = k)
  /\ resolvedHeaders ctx = authHeaders ctx
  /\ strategy ctx = configured.
Proof.
  intros ctx. split; [|done].
  intros k v [Hempty | (Hk & _ & Hname)]%forward_lookup_inv; [done|].
  split; [|done].
  unfold acceptSet in Hk. apply elem_of_union in Hk as [Hk | Hk].
  - right. apply elem_of_list_to_set, list_elem_of_In, in_map_iff in Hk.
    destruct Hk as (h & Hh & Hin). by exists h.
  - left. by apply elem_of_list_to_set in Hk.
Qed.

(** X28. An incoming header whose name is accepted is forwarded under its
    lower-case name with its value, provided no other incoming header has
    the same name in lower case (the header iterator yields each name
    once) and the name is not [__proto__]. The names [authorization],
    [x-api-key] and [x-auth-token] are accepted whatever the
    configuration. *)
Theorem accepted_header_is_forwarded (acceptHeaders : list string)
  (configured : AuthStrategyType) (incoming : list (string * string))
  (name v : string) :
  NoDup (List.map (fun kv => Js.toLowerCase (fst kv)) incoming) ->
  In (name, v) incoming ->
  Js.toLowerCase name ∈ standardAuthHeaders
  \/ (exists h, In h acceptHeaders
                /\ Js.toLowerCase h = Js.toLowerCase name) ->
  Js.toLowerCase name <> "__proto__" ->
  authHeaders (createAuthHeaderMiddleware acceptHeaders configured incoming)
    !! Js.toLowerCase name = Some v.
Proof.
  intros Hnodup Hin Haccept Hproto.
  assert (Js.toLowerCase name ∈ acceptSet acceptHeaders) as Hk.
  { unfold acceptSet. apply elem_of_union.
    destruct Haccept as [Hstd | (h & Hh & Heq)].
    - right. by apply elem_of_list_to_set.
    - left. apply elem_of_list_to_set, list_elem_of_In, in_map_iff.
      by exists h. }
  unfold createAuthHeaderMiddleware. simpl.
  generalize (∅ : gmap string string) as forwarded.
  induction incoming as [|[name0 v0] rest IH]; intros forwarded; [done|].
  simpl in Hnodup. apply NoDup_cons in Hnodup as [Hfresh Hrest].
  destruct Hin as [[= -> ->] | Hin]; simpl.
  - rewrite forward_lookup_other.
    + rewrite bool_decide_eq_true_2 by done. rewrite assign_lookup.
      by rewrite bool_decide_eq_true_2.
    + intros n w Hn Heq. apply Hfresh. rewrite <- Heq.
      apply list_elem_of_In, in_map_iff. by exists (n, w).
  - by apply IH.
Qed.

End AuthHeadersResults.

(** ** The further properties on the sample inputs *)

Section MoreGateSamples.
Import Config Credentials Gate SpecModel Samples MoreSamples.

(** X1 on a configuration that enables authentication without a secret. *)
Lemma gate_fails_closed_sample :
  let cfg := parseConfig enabledNoSecretEnv in
  let req := request [localOrigin; authorization "Bearer abc123"] in
  (forall ctx, Hono.createMcpSecurityMiddleware cfg req "uuid" <> Hono.Next ctx)
  /\ Workers.checkAuthAndChallenge req cfg "sid" <> None.
Proof.
  intros cfg req.
  apply (gate_fails_closed_without_secret cfg req "sid" "uuid");
    reflexivity.
Defined.

(** X2 on the request that presents the secret. *)
Lemma admission_sample :
  let cfg := parseConfig bearerEnv in
  let req := request [localOrigin; authorization "Bearer abc123"] in
  exists auth secret,
    validateRequest cfg (req_headers req) = Returns tt
    /\ headerGet (req_headers req) "Authorization" = Some auth
    /\ BEARER_TOKEN cfg = Some secret /\ secret <> ""
    /\ Workers.extractBearer (Some auth) = Some secret.
Proof.
  intros cfg req.
  destruct (admission_requires_the_secret cfg req "sid" "uuid") as [_ Hw].
  - reflexivity.
  - apply Hw. vm_compute; reflexivity.
Defined.

(** X3 on a request from a foreign origin. *)
Lemma hono_reply_sample :
  let cfg := parseConfig bearerEnv in
  let req := request [foreignOrigin] in
  exists msg, validateRequest cfg (req_headers req) = Throws msg
              /\ Hono.createMcpSecurityMiddleware cfg req "uuid"
                 = Hono.Reply (Hono.internalError msg).
Proof.
  intros cfg req.
  destruct (hono_reply_is_internal_error_or_challenge cfg req "uuid"
              (Hono.internalError "OriginRejected"))
    as [(msg & Hmsg & _) | [Hval _]].
  - vm_compute; reflexivity.
  - exists msg. split; [exact Hmsg|]. vm_compute in Hmsg.
    injection Hmsg as <-. vm_compute; reflexivity.
  - vm_compute in Hval. discriminate Hval.
Defined.

(** X4 on a request without credentials. *)
Lemma workers_refusal_sample :
  let cfg := parseConfig bearerEnv in
  let req := request [localOrigin] in
  exists message r,
    Workers.buildChallengeResponse (url_origin req) "sid" None
    = Workers.buildChallengeResponse (url_origin req) "sid" message
    /\ Workers.buildChallengeResponse (url_origin req) "sid" None = withCors r
    /\ respHeader r "Content-Type" = Some "application/json"
    /\ respHeader r "Mcp-Session-Id" = Some "sid"
    /\ is_Some (respHeader r "WWW-Authenticate")
    /\ (forall msg, validateRequest cfg (req_headers req) = Throws msg ->
                    message = Some msg).
Proof.
  intros cfg req.
  apply (workers_refusal_is_a_challenge cfg req "sid").
  vm_compute; reflexivity.
Defined.

(** X5 on an open configuration. *)
Lemma no_credentials_sample :
  let cfg := parseConfig openEnv in
  let req := request [localOrigin] in
  Workers.checkAuthAndChallenge req cfg "sid" = None.
Proof.
  intros cfg req.
  destruct (no_credentials_admitted_iff_open cfg req "sid" "uuid")
    as [_ Hw].
  - vm_compute; reflexivity.
  - apply Hw. split; vm_compute; reflexivity.
Defined.

(** X6 on a value with the scheme in mixed case and two spaces. *)
Lemma workers_extraction_sample :
  is_Some (Workers.extractBearer (Some "bEaReR  abc123")).
Proof.
  destruct (workers_extraction_reads "bEaReR  abc123") as [_ Hfound].
  apply (Hfound "" "bEaReR" "  " "abc123");
    try reflexivity; discriminate.
Defined.

(** X7 on a value with something after the token. *)
Lemma hono_extraction_sample :
  Hono.extractBearer "BEARER abc123 extra" = Some (Js.trim "abc123").
Proof.
  destruct (hono_extraction_reads "BEARER abc123 extra") as [_ Hreads].
  apply (Hreads "BEARER" "abc123" " extra"); try reflexivity.
  right. exists "extra". reflexivity.
Defined.

(** X8 on the request that presents the secret and names its session. *)
Lemma adapters_agree_sample :
  let cfg := parseConfig bearerEnv in
  let req := request [localOrigin; authorization "Bearer abc123";
                      sessionId "s-1"] in
  ((exists ctx, Hono.createMcpSecurityMiddleware cfg req "uuid" = Hono.Next ctx)
   /\ Workers.checkAuthAndChallenge req cfg "s-1" = None)
  \/ (exists message,
        Hono.createMcpSecurityMiddleware cfg req "uuid"
        = Hono.Reply (Hono.challengeResponse (url_origin req) "s-1" message)
        /\ Workers.checkAuthAndChallenge req cfg "s-1"
           = Some (Workers.buildChallengeResponse (url_origin req) "s-1"
                     message)).
Proof.
  intros cfg req.
  apply (adapters_agree_on_plain_requests cfg req "s-1" "uuid").
  - vm_compute; reflexivity.
  - vm_compute; reflexivity.
  - right. right. exists "abc123", "Bearer abc123", "abc123".
    split; [reflexivity|]. split; [reflexivity|]. split; [reflexivity|].
    split; [discriminate|]. split; [vm_compute; reflexivity|].
    exists "Bearer". split; [reflexivity|]. split; reflexivity.
Defined.

End MoreGateSamples.

Section MoreHelperSamples.
Import Config Credentials Gate Samples MoreSamples BearerHelpers.

(** X9 on a header with the scheme in lower case. *)
Lemma validateBearer_sample :
  let h : gmap string string :=
    list_to_map [authorization "bearer abc123"] in
  validateBearer h = (if bool_decide ("bearer" = "Bearer") then Some "abc123"
                      else None)
  /\ Hono.extractBearer ("bearer" +:+ " " +:+ "abc123") = Some "abc123"
  /\ Workers.extractBearer (Some ("bearer" +:+ " " +:+ "abc123"))
     = Some "abc123".
Proof.
  intros h.
  apply (validateBearer_is_case_sensitive h "bearer" "abc123").
  - vm_compute; reflexivity.
  - reflexivity.
  - reflexivity.
Defined.

(** X11 on a matching header. *)
Lemma validateBearerToken_sample :
  exists auth expected,
    Some "Bearer abc123" = Some auth /\ Some "abc123" = Some expected
    /\ expected <> ""
    /\ Js.matchBearer auth = Some expected
    /\ Workers.extractBearer (Some "Bearer abc123") = Some (Js.trim expected).
Proof.
  destruct (validateBearerToken_is_exact (Some "Bearer abc123")
              (Some "abc123")) as [_ Hexact].
  apply Hexact. vm_compute; reflexivity.
Defined.

(** X12 on a header that presents another token. *)
Lemma validateBearerToken_wellformed_sample :
  Strategy.validateBearerToken (Some "Bearer wrong") (Some "abc123")
  = bool_decide ("wrong" = "abc123").
Proof.
  apply (validateBearerToken_on_wellformed "Bearer wrong" "wrong" "abc123").
  - exists "Bearer". repeat split; reflexivity.
  - discriminate.
Defined.

(** X13 on the environment in which nothing is set. *)
Lemma strategy_readers_sample :
  Strategy.type (Strategy.parseAuthStrategy emptyEnv) = bearer
  /\ parseAuthStrategy emptyEnv = none
  /\ Strategy.validateAuthConfig (Strategy.parseAuthStrategy emptyEnv) <> [].
Proof.
  destruct (strategy_readers_differ_only_when_nothing_is_set emptyEnv)
    as (_ & _ & _ & Hdiffer).
  apply Hdiffer. vm_compute. discriminate.
Defined.

(** X14 on the environment that sets a secret. *)
Lemma validateAuthConfig_sample :
  Strategy.validateAuthConfig (Strategy.parseAuthStrategy bearerEnv) = [].
Proof.
  destruct (validateAuthConfig_of_environment bearerEnv) as (Hvalid & _).
  apply Hvalid. right. right. exists "abc123".
  split; [reflexivity | discriminate].
Defined.

(** X16 on a text with spaces and an empty piece. *)
Lemma parseStringArray_sample :
  ConfigMore.cleanName "x-b".
Proof.
  destruct (parseStringArray_elements_are_clean (EStr " x-a, x-b ,,x-c"))
    as [Hclean _].
  destruct (Hclean "x-b") as [Hb _]; [|exact Hb].
  vm_compute. right. left. reflexivity.
Defined.

(** X17 on two names. *)
Lemma parseStringArray_round_trip_sample :
  ConfigMore.parseStringArray
    (EStr (JsMore.join "," ["authorization"; "x-api-key"]))
  = ["authorization"; "x-api-key"].
Proof.
  apply parseStringArray_reads_back_joined_names.
  repeat constructor; try reflexivity; discriminate.
Defined.

End MoreHelperSamples.

Section MoreStoreSamples.
Import Config Storage StoreSamples MoreSamples.

(** X18 on the one session, read while it lives. *)
Lemma get_reports_sample :
  snd (Memory.get oneSession "s-1" 500) = Some {| created_at := 0 |}.
Proof.
  destruct (get_reports_live_entries_only oneSession "s-1" 500)
    as (Hlive & _).
  apply Hlive.
  exists {| record := {| created_at := 0 |}; expiresAt := 1000 |}.
  split; [vm_compute; reflexivity|]. split; [reflexivity|]. simpl. lia.
Defined.

(** X19 on a write at time 0 read at time 1000, the last moment. *)
Lemma put_then_get_sample :
  Memory.get (Memory.put (newMemorySessionStore 1000) "s-1"
                {| created_at := 7 |} 0) "s-1" 1000
  = (Memory.put (newMemorySessionStore 1000) "s-1" {| created_at := 7 |} 0,
     Some {| created_at := 7 |}).
Proof.
  destruct (put_then_get (newMemorySessionStore 1000) "s-1"
              {| created_at := 7 |} 0 1000) as (Hlive & _).
  apply Hlive. simpl. lia.
Defined.

(** X21 on another session of the same store. *)
Lemma delete_sample :
  snd (Memory.get (Memory.delete oneSession "s-2") "s-1" 500)
  = snd (Memory.get oneSession "s-1" 500).
Proof.
  destruct (delete_removes_exactly_that_session oneSession "s-2" 500)
    as (_ & Hother & _).
  apply Hother. discriminate.
Defined.

(** X22 on a sweep at time 2000 and a read at time 3000. *)
Lemma cleanup_sample :
  snd (Memory.get (Memory.cleanup oneSession 2000) "s-1" 3000)
  = snd (Memory.get oneSession "s-1" 3000).
Proof.
  destruct (cleanup_is_invisible_to_get oneSession "s-1" 2000 3000)
    as [Hsame _]; [lia | exact Hsame].
Defined.

(** X23 on the one session, read after it expired. *)
Lemma ensure_after_get_sample :
  snd (Memory.get
         (Memory.ensure (fst (Memory.get oneSession "s-1" 5000)) "s-1" 5000)
         "s-1" 5500)
  = Some {| created_at := 5000 |}.
Proof.
  destruct (ensure_after_empty_get_starts_afresh oneSession "s-1"
              5000 5000 5500) as [_ Hget].
  - vm_compute; reflexivity.
  - apply Hget. simpl. lia.
Defined.

(** X24 on the store whose service is down. *)
Lemma kv_delete_sample :
  snd (Kv.get (Kv.delete (Kv.put degradedStore "s-1" {| created_at := 1 |} 0)
                 "s-1") "s-1" 10) = None.
Proof.
  destruct (kv_delete_always_clears_the_fallback
              (Kv.put degradedStore "s-1" {| created_at := 1 |} 0) "s-1" 10)
    as [_ Hget].
  apply Hget. intros parsed. vm_compute. discriminate.
Defined.

(** X25 on the store whose service is down. *)
Lemma write_is_not_lost_sample :
  let st1 := Kv.put degradedStore "s-1" {| created_at := 1 |} 0 in
  (exists parsed, Kv.readDurable st1 "s-1" = Returns (Some parsed)
                  /\ Kv.get st1 "s-1" 10 = (st1, parsed))
  \/ ((forall parsed, Kv.readDurable st1 "s-1" <> Returns (Some parsed))
      /\ Kv.get st1 "s-1" 10 = (st1, Some {| created_at := 1 |})).
Proof.
  apply (write_is_not_lost_within_ttl degradedStore
           (newMemorySessionStore DEFAULT_TTL_MS) "s-1"
           {| created_at := 1 |} 0 10).
  - reflexivity.
  - vm_compute. discriminate.
Defined.

(** X26 on the working service, without fallback. *)
Lemma healthy_round_trip_sample :
  let st1 := Kv.put durableStore "s-1" {| created_at := 42 |} 0 in
  kv st1 = fst (kv_put (kv durableStore) (Kv.key "s-1")
                  (recordText {| created_at := 42 |}) SESSION_TTL_SECONDS)
  /\ Kv.get st1 "s-1" 99 = (st1, Some {| created_at := 42 |}).
Proof.
  apply (healthy_service_round_trip durableStore "s-1" {| created_at := 42 |}
           0 99 (recordText {| created_at := 42 |})
           (recordText {| created_at := 42 |})).
  - reflexivity.
  - vm_compute. discriminate.
  - vm_compute; reflexivity.
  - reflexivity.
  - vm_compute; reflexivity.
Defined.

(** X27 on the sample headers with one configured name. *)
Lemma forwarded_headers_sample :
  (("x-custom" : string) ∈ AuthHeaders.standardAuthHeaders
   \/ exists h, In h ["X-Custom"] /\ Js.toLowerCase h = "x-custom")
  /\ exists name, In (name, "1") incomingHeaders
                  /\ Js.toLowerCase name = "x-custom".
Proof.
  destruct (forwarded_headers_are_accepted_ones ["X-Custom"] bearer
              incomingHeaders) as [Hforwarded _].
  apply Hforwarded. vm_compute; reflexivity.
Defined.

(** X28 on the [authorization] header of the sample headers. *)
Lemma accepted_header_sample :
  AuthHeaders.authHeaders
    (AuthHeaders.createAuthHeaderMiddleware [] bearer incomingHeaders)
    !! Js.toLowerCase "authorization" = Some "Bearer abc123".
Proof.
  apply (accepted_header_is_forwarded [] bearer incomingHeaders
           "authorization" "Bearer abc123").
  - apply (bool_decide_unpack _). vm_compute. exact I.
  - left. reflexivity.
  - left. apply (bool_decide_unpack _). vm_compute. exact I.
  - discriminate.
Defined.

End MoreStoreSamples.
